(** * Document access, proof and RPC layer of the platform repository

    A shallow embedding of

    - [DocumentRepository] (js-drive): [create], [update], [find],
      [delete], [prove], [proveManyDocumentsFromDifferentContracts];
    - [DriveClient.request] (dapi): the JSON-RPC gateway to Drive;

    together with the part of JavaScript they rely on: values and a heap
    of mutable objects, property deletion, [try]/[catch]/[finally],
    string prefixes.  External collaborators (the GroveDB store, the
    logger, the JSON-RPC client, the CBOR and base64 codecs, SHA-256) are
    taken as parameters; every call made to the store is recorded in a
    trace so that what is forwarded can be stated. *)

From Stdlib Require Import ZArith String Ascii Bool Lia.
From Stdlib.Strings Require Import Byte.
From stdpp Require Import base list.

Set Warnings "-register-all".

Local Open Scope string_scope.
Local Open Scope list_scope.

(** ** JavaScript values and the object heap *)

Module JS.

(** A location names a mutable object; two variables holding the same
    location alias the same object. *)
Abbreviation loc := nat.

(** Numbers are the integers the code handles (limits, fees, codes). *)
Inductive value : Type :=
| VUndefined
| VNull
| VBool (b : bool)
| VNum (z : Z)
| VStr (s : string)
| VRef (l : loc).

(** Heap cells: plain objects keep their properties in insertion order
    (the order [Object.keys] enumerates), arrays their elements, buffers
    their bytes. *)
Inductive cell : Type :=
| CObject (props : list (string * value))
| CArray (elems : list value)
| CBuffer (bytes : list byte).

Abbreviation heap := (list cell).

Definition value_eqb_undefined (v : value) : bool :=
  match v with VUndefined => true | _ => false end.

(** [Boolean(v)]: objects are truthy, [undefined], [null], [false], [0]
    and the empty string are falsy. *)
Definition toBoolean (v : value) : bool :=
  match v with
  | VUndefined | VNull => false
  | VBool b => b
  | VNum z => negb (z =? 0)%Z
  | VStr s => negb (String.eqb s "")
  | VRef _ => true
  end.

(** Own properties of a property list. *)
Fixpoint lookup_prop (k : string) (ps : list (string * value)) : option value :=
  match ps with
  | [] => None
  | (k', v) :: ps' => if String.eqb k k' then Some v else lookup_prop k ps'
  end.

Definition remove_prop (k : string) (ps : list (string * value))
  : list (string * value) :=
  List.filter (fun kv => negb (String.eqb k (fst kv))) ps.

Definition prop_keys (ps : list (string * value)) : list string :=
  List.map fst ps.

(** [typeof v === 'object' && !Array.isArray(v) && v !== null] *)
Definition isPlainObjectLike (h : heap) (v : value) : bool :=
  match v with
  | VRef l =>
      match h !! l with
      | Some (CObject _) | Some (CBuffer _) => true
      | Some (CArray _) | None => false
      end
  | _ => false
  end.

(** [v[k]] for a base that is not [undefined] or [null]; a property that
    is not an own property of a plain object reads as [undefined].  Only
    named (non-index) keys of arrays, buffers and primitives are read by
    the code modelled here. *)
Definition getProperty (h : heap) (v : value) (k : string) : value :=
  match v with
  | VRef l =>
      match h !! l with
      | Some (CObject ps) =>
          match lookup_prop k ps with Some x => x | None => VUndefined end
      | _ => VUndefined
      end
  | _ => VUndefined
  end.

(** [delete v[k]]: mutates the object at [v]'s location. *)
Definition deleteProperty (h : heap) (v : value) (k : string) : heap :=
  match v with
  | VRef l =>
      match h !! l with
      | Some (CObject ps) => <[l := CObject (remove_prop k ps)]> h
      | _ => h
      end
  | _ => h
  end.

(** [Object.keys(v)] for plain objects.  The keys of a buffer are its
    indices, whose values are numbers; they are left out, since the only
    use of [Object.keys] here is a loop that looks for keys whose value
    is [undefined]. *)
Definition objectKeys (h : heap) (v : value) : list string :=
  match v with
  | VRef l =>
      match h !! l with
      | Some (CObject ps) => prop_keys ps
      | _ => []
      end
  | _ => []
  end.

(** *** Data read off the heap

    What a consumer that only reads (the store, a serializer) sees of a
    value: its unfolding to depth [n]. *)
Inductive data : Type :=
| DUndefined
| DNull
| DBool (b : bool)
| DNum (z : Z)
| DStr (s : string)
| DObject (props : list (string * data))
| DArray (elems : list data)
| DBuffer (bytes : list byte)
| DDeeper
| DDangling.

Fixpoint reify (n : nat) (h : heap) (v : value) : data :=
  match v with
  | VUndefined => DUndefined
  | VNull => DNull
  | VBool b => DBool b
  | VNum z => DNum z
  | VStr s => DStr s
  | VRef l =>
      match n with
      | O => DDeeper
      | S n' =>
          match h !! l with
          | Some (CObject ps) =>
              DObject (List.map (fun kv => (fst kv, reify n' h (snd kv))) ps)
          | Some (CArray vs) => DArray (List.map (reify n' h) vs)
          | Some (CBuffer bs) => DBuffer bs
          | None => DDangling
          end
      end
  end.

(** *** Strings *)

(** [s.startsWith(p)] *)
Definition startsWith (s p : string) : bool := String.prefix p s.

(** [s.substring(a, b)]: both indices are clamped to the length and
    swapped when out of order. *)
Definition substring (s : string) (a b : nat) : string :=
  let a' := Nat.min a (String.length s) in
  let b' := Nat.min b (String.length s) in
  String.substring (Nat.min a' b') (Nat.max a' b' - Nat.min a' b') s.

(** *** Errors

    A thrown [Error] object: the name of its class, its message and,
    for the classes that carry them, a numeric code and attached data. *)
Record error : Type := mkError {
  error_class : string;
  message : string;
  error_code : option Z;
  error_data : data
}.

Definition TypeError (msg : string) : error :=
  mkError "TypeError" msg None DUndefined.

(** How a call ends. *)
Inductive outcome (A : Type) : Type :=
| Returned (a : A)
| Threw (e : error).
Arguments Returned {A} a.
Arguments Threw {A} e.

End JS.

Import JS.

(** ** lodash's [cloneDeep]

    Third-party code, modelled from its documented behaviour: a primitive
    is returned as it is; for an object the result is a copy of the object
    graph at fresh locations, shared and cyclic references included.  The
    copy is taken of every cell of the heap, shifted past the existing
    ones; the copies the argument does not reach stay unreachable from the
    result, so nothing observable depends on them. *)

Module Lodash.

Definition relocate (n : nat) (v : value) : value :=
  match v with
  | VRef l => VRef (n + l)
  | _ => v
  end.

Definition relocate_cell (n : nat) (c : cell) : cell :=
  match c with
  | CObject ps => CObject (List.map (fun kv => (fst kv, relocate n (snd kv))) ps)
  | CArray vs => CArray (List.map (relocate n) vs)
  | CBuffer bs => CBuffer bs
  end.

Definition cloneDeep (h : heap) (v : value) : heap * value :=
  match v with
  | VRef l => (h ++ List.map (relocate_cell (length h)) h, VRef (length h + l))
  | _ => (h, v)
  end.

End Lodash.

(** ** Buffers and hexadecimal text *)

Definition Buffer := list byte.

Definition hex_digit (n : N) : ascii :=
  match n with
  | 0 => "0" | 1 => "1" | 2 => "2" | 3 => "3" | 4 => "4" | 5 => "5"
  | 6 => "6" | 7 => "7" | 8 => "8" | 9 => "9" | 10 => "a" | 11 => "b"
  | 12 => "c" | 13 => "d" | 14 => "e" | _ => "f"
  end%N%char.

(** [buffer.toString('hex')] *)
Fixpoint toHex (b : Buffer) : string :=
  match b with
  | [] => EmptyString
  | x :: b' =>
      let n := Byte.to_N x in
      String (hex_digit (n / 16)) (String (hex_digit (n mod 16)) (toHex b'))
  end.

(** [Buffer.from(s)] for a string held as its UTF-8 bytes. *)
Definition Buffer_from_string (s : string) : Buffer := list_byte_of_string s.

(** ** The store, its results and the world the repository runs in *)

Definition Identifier := Buffer.

Record Document : Type := { toBuffer : Buffer }.

Record DataContract : Type := { getId : Identifier; contract_body : Buffer }.

Record FeeRefund : Type := { refund_identity : Identifier; refund_credits : Z }.

(** What the store reports for a mutation. *)
Record FeeResult : Type := {
  storageFee : Z;
  processingFee : Z;
  feeRefunds : list FeeRefund
}.

(** [dppWasm.PreCalculatedOperation(storageCost, processingCost, feeRefunds)] *)
Record PreCalculatedOperation : Type := {
  op_storageCost : Z;
  op_processingCost : Z;
  op_feeRefunds : list FeeRefund
}.

Record StorageResult (A : Type) : Type := {
  sr_value : A;
  sr_operations : list PreCalculatedOperation
}.
Arguments Build_StorageResult {A} _ _.
Arguments sr_value {A} _.
Arguments sr_operations {A} _.

(** One entry of [items] in a path query: [{ type, key }]. *)
Record QueryItem : Type := { item_type : string; item_key : Buffer }.

(** [{ path, query: { query: { items } } }] *)
Record PathQuery : Type := { pq_path : list Buffer; pq_items : list QueryItem }.

(** Calls made to the store, with their arguments; a query is recorded
    with the heap it is read from. *)
Inductive drive_call : Type :=
| CallCreateDocument (document : Document) (blockInfo : value)
    (useTransaction dryRun : bool)
| CallUpdateDocument (document : Document) (blockInfo : value)
    (useTransaction dryRun : bool)
| CallDeleteDocument (contractId : Identifier) (documentType : string)
    (id : Identifier) (blockInfo : value) (useTransaction dryRun : bool)
| CallQueryDocuments (dataContract : DataContract) (documentType : string)
    (epochIndex : value) (h : heap) (query : value) (useTransaction : value)
| CallProveDocumentsQuery (dataContract : DataContract) (documentType : string)
    (h : heap) (query : value) (useTransaction : value)
| CallProveQueryMany (queries : list PathQuery)
| CallGetRootHash (h : heap) (options : value).

(** The store as seen from the repository: what each call on
    [this.storage], or on the drive that [this.storage.getDrive()] gives,
    answers.  The store is native code that reads its arguments; it does
    not write to the objects of its caller, so a call leaves the heap as
    it is. *)
Record GroveDBStore : Type := {
  createDocument : Document -> value -> bool -> bool -> outcome FeeResult;
  updateDocument : Document -> value -> bool -> bool -> outcome FeeResult;
  deleteDocument :
    Identifier -> string -> Identifier -> value -> bool -> bool -> outcome FeeResult;
  queryDocuments :
    DataContract -> string -> value -> heap -> value -> value ->
    outcome (list Document * Z);
  proveDocumentsQuery :
    DataContract -> string -> heap -> value -> value -> outcome (Buffer * Z);
  proveQueryMany : list PathQuery -> outcome (StorageResult (option Buffer));
  getRootHash : heap -> value -> outcome Buffer
}.

(** Entries handed to [logger.info], with their message. *)
Inductive log_entry : Type :=
| LogDocument (msg : string) (document documentHash : string)
    (useTransaction dryRun : bool) (appHash : string)
| LogDelete (msg : string) (dataContractId documentType id : string)
    (useTransaction : bool) (appHash : string).

Record world : Type := mkWorld {
  w_heap : heap;
  w_calls : list drive_call;
  w_log : list log_entry
}.

(** ** Computations: state and exceptions *)

Definition M (A : Type) : Type := world -> outcome A * world.

Definition ret {A} (a : A) : M A := fun w => (Returned a, w).

Definition throw {A} (e : error) : M A := fun w => (Threw e, w).

Definition bind {A B} (m : M A) (k : A -> M B) : M B :=
  fun w =>
    match m w with
    | (Returned a, w') => k a w'
    | (Threw e, w') => (Threw e, w')
    end.

Notation "'let*' x ':=' m 'in' k" := (bind m (fun x => k))
  (at level 10, x pattern, m at level 100, k at level 200).

(** [try { body } catch (e) { handler }] *)
Definition try_catch {A} (body : M A) (handler : error -> M A) : M A :=
  fun w =>
    match body w with
    | (Returned a, w') => (Returned a, w')
    | (Threw e, w') => handler e w'
    end.

(** [try { body } finally { cleanup }]: the cleanup runs however the body
    ends; an exception of the cleanup replaces the body's completion,
    otherwise the body's completion stands. *)
Definition try_finally {A} (body : M A) (cleanup : M unit) : M A :=
  fun w =>
    match body w with
    | (r, w') =>
        match cleanup w' with
        | (Returned _, w'') => (r, w'')
        | (Threw e, w'') => (Threw e, w'')
        end
    end.

Definition get_heap : M heap := fun w => (Returned (w_heap w), w).

(** An awaited call to the store: recorded, then answered. *)
Definition call_store {A} (c : drive_call) (answer : outcome A) : M A :=
  fun w => (answer, mkWorld (w_heap w) (w_calls w ++ [c]) (w_log w)).

Definition logger_info (entry : log_entry) : M unit :=
  fun w => (Returned tt, mkWorld (w_heap w) (w_calls w) (w_log w ++ [entry])).

(** Code that only works on the heap, run in the current world. *)
Definition on_heap {A} (f : heap -> heap * A) : M A :=
  fun w =>
    (Returned (snd (f (w_heap w))),
     mkWorld (fst (f (w_heap w))) (w_calls w) (w_log w)).

(** A parameter that defaults to a fresh [{}] when [undefined] is passed. *)
Definition default_empty_object (h : heap) (v : value) : heap * value :=
  match v with
  | VUndefined => (h ++ [CObject []], VRef (length h))
  | _ => (h, v)
  end.

(** [base.k], which throws a [TypeError] on [undefined] and [null]. *)
Definition read_property (base : value) (k : string) : M value :=
  match base with
  | VUndefined =>
      throw (TypeError ("Cannot read properties of undefined (reading '" ++ k ++ "')"))
  | VNull =>
      throw (TypeError ("Cannot read properties of null (reading '" ++ k ++ "')"))
  | _ => let* h := get_heap in ret (getProperty h base k)
  end.

(** ** DocumentRepository *)

Module DocumentRepository.

Definition InvalidQueryError (msg : string) : error :=
  mkError "InvalidQueryError" msg None DUndefined.

(** [Object.keys(query).forEach((queryOption) => { if (query[queryOption]
    === undefined) delete query[queryOption]; })] *)
Definition remove_undefined_options (h : heap) (query : value) : heap :=
  List.fold_left
    (fun h' queryOption =>
       if value_eqb_undefined (getProperty h' query queryOption)
       then deleteProperty h' query queryOption
       else h')
    (objectKeys h query) h.

(** Lines 166-183 of [find]: the clone and what is removed from it; the
    result is the query and [useTransaction]. *)
Definition find_query (h : heap) (options : value) : heap * (value * value) :=
  let (h1, query) := Lodash.cloneDeep h options in
  if isPlainObjectLike h1 query then
    let useTransaction := getProperty h1 query "useTransaction" in
    let h2 := deleteProperty h1 query "useTransaction" in
    let h3 := deleteProperty h2 query "dryRun" in
    let h4 := deleteProperty h3 query "blockInfo" in
    let h5 := remove_undefined_options h4 query in
    (h5, (query, useTransaction))
  else (h1, (query, VBool false)).

(** Lines 281-297 of [prove]. *)
Definition prove_query (h : heap) (options : value) : heap * (value * value) :=
  let (h1, query) := Lodash.cloneDeep h options in
  if isPlainObjectLike h1 query then
    let useTransaction := getProperty h1 query "useTransaction" in
    let h2 := deleteProperty h1 query "useTransaction" in
    let h3 := deleteProperty h2 query "dryRun" in
    let h4 := remove_undefined_options h3 query in
    (h4, (query, useTransaction))
  else (h1, (query, VBool false)).

(** [options && options.blockInfo ? options.blockInfo.epoch : undefined] *)
Definition find_epochIndex (h : heap) (options : value) : value :=
  if toBoolean options && toBoolean (getProperty h options "blockInfo")
  then getProperty h (getProperty h options "blockInfo") "epoch"
  else VUndefined.

(** The [catch] clause of [find]. *)
Definition find_catch {A} (e : error) : M A :=
  if startsWith (message e) "query: " then
    throw (InvalidQueryError (substring (message e) 7 (String.length (message e))))
  else if startsWith (message e) "structure: " then
    throw (InvalidQueryError (substring (message e) 11 (String.length (message e))))
  else if startsWith (message e) "contract: " then
    throw (InvalidQueryError (substring (message e) 10 (String.length (message e))))
  else if startsWith (message e) "protocol: " then
    throw (InvalidQueryError (substring (message e) 10 (String.length (message e))))
  else throw e.

(** The [catch] clause of [prove]. *)
Definition prove_catch {A} (e : error) : M A :=
  if startsWith (message e) "query: " then
    throw (InvalidQueryError (substring (message e) 7 (String.length (message e))))
  else if startsWith (message e) "structure: " then
    throw (InvalidQueryError (substring (message e) 11 (String.length (message e))))
  else if startsWith (message e) "contract: " then
    throw (InvalidQueryError (substring (message e) 10 (String.length (message e))))
  else throw e.

Section Repository.

(** [this.storage], whether [this.logger] is set, and the library
    functions used to build log entries: SHA-256 and the text form of
    an identifier. *)
Variable storage : GroveDBStore.
Variable logger : bool.
Variable sha256 : Buffer -> Buffer.
Variable identifier_toString : Identifier -> string.

(** The [finally] block of [create] and [update]. *)
Definition log_document (msg : string) (document : Document) (options : value)
  : M unit :=
  if logger then
    let* useTransaction := read_property options "useTransaction" in
    let* dryRun := read_property options "dryRun" in
    let* h := get_heap in
    let* appHash :=
      call_store (CallGetRootHash h options) (getRootHash storage h options) in
    logger_info
      (LogDocument msg
         (toHex (toBuffer document))
         (toHex (sha256 (toBuffer document)))
         (toBoolean useTransaction)
         (toBoolean dryRun)
         (toHex appHash))
  else ret tt.

Definition fee_operation (feeResult : FeeResult) : PreCalculatedOperation :=
  {| op_storageCost := storageFee feeResult;
     op_processingCost := processingFee feeResult;
     op_feeRefunds := feeRefunds feeResult |}.

Definition create (document : Document) (blockInfo options0 : value)
  : M (StorageResult unit) :=
  let* options := on_heap (fun h => default_empty_object h options0) in
  let* feeResult :=
    try_finally
      (let* useTransaction := read_property options "useTransaction" in
       let* dryRun := read_property options "dryRun" in
       call_store
         (CallCreateDocument document blockInfo
            (toBoolean useTransaction) (toBoolean dryRun))
         (createDocument storage document blockInfo
            (toBoolean useTransaction) (toBoolean dryRun)))
      (log_document "createDocument" document options) in
  ret (Build_StorageResult tt [fee_operation feeResult]).

Definition update (document : Document) (blockInfo options0 : value)
  : M (StorageResult unit) :=
  let* options := on_heap (fun h => default_empty_object h options0) in
  let* feeResult :=
    try_finally
      (let* useTransaction := read_property options "useTransaction" in
       let* dryRun := read_property options "dryRun" in
       call_store
         (CallUpdateDocument document blockInfo
            (toBoolean useTransaction) (toBoolean dryRun))
         (updateDocument storage document blockInfo
            (toBoolean useTransaction) (toBoolean dryRun)))
      (log_document "updateDocument" document options) in
  ret (Build_StorageResult tt [fee_operation feeResult]).

(** The [finally] block of [delete]. *)
Definition log_delete (dataContract : DataContract) (documentType : string)
    (id : Identifier) (options : value) : M unit :=
  if logger then
    let* useTransaction := read_property options "useTransaction" in
    let* h := get_heap in
    let* appHash :=
      call_store (CallGetRootHash h options) (getRootHash storage h options) in
    logger_info
      (LogDelete "deleteDocument"
         (identifier_toString (getId dataContract))
         documentType
         (identifier_toString id)
         (toBoolean useTransaction)
         (toHex appHash))
  else ret tt.

Definition delete (dataContract : DataContract) (documentType : string)
    (id : Identifier) (blockInfo options0 : value) : M (StorageResult unit) :=
  let* options := on_heap (fun h => default_empty_object h options0) in
  try_finally
    (let* useTransaction := read_property options "useTransaction" in
     let* dryRun := read_property options "dryRun" in
     let* feeResult :=
       call_store
         (CallDeleteDocument (getId dataContract) documentType id blockInfo
            (toBoolean useTransaction) (toBoolean dryRun))
         (deleteDocument storage (getId dataContract) documentType id blockInfo
            (toBoolean useTransaction) (toBoolean dryRun)) in
     ret (Build_StorageResult tt [fee_operation feeResult]))
    (log_delete dataContract documentType id options).

Definition find (dataContract : DataContract) (documentType : string)
    (options0 : value) : M (StorageResult (list Document)) :=
  let* options := on_heap (fun h => default_empty_object h options0) in
  let* (query, useTransaction) := on_heap (fun h => find_query h options) in
  try_catch
    (let* h := get_heap in
     let epochIndex := find_epochIndex h options in
     let* (documents, processingCost) :=
       call_store
         (CallQueryDocuments dataContract documentType epochIndex h query
            useTransaction)
         (queryDocuments storage dataContract documentType epochIndex h query
            useTransaction) in
     ret (Build_StorageResult documents
            [ {| op_storageCost := 0;
                 op_processingCost := processingCost;
                 op_feeRefunds := [] |} ]))
    find_catch.

Definition prove (dataContract : DataContract) (documentType : string)
    (options0 : value) : M (StorageResult Buffer) :=
  let* options := on_heap (fun h => default_empty_object h options0) in
  let* (query, useTransaction) := on_heap (fun h => prove_query h options) in
  try_catch
    (let* h := get_heap in
     let* (proof, processingCost) :=
       call_store
         (CallProveDocumentsQuery dataContract documentType h query
            useTransaction)
         (proveDocumentsQuery storage dataContract documentType h query
            useTransaction) in
     ret (Build_StorageResult proof
            [ {| op_storageCost := 0;
                 op_processingCost := processingCost;
                 op_feeRefunds := [] |} ]))
    prove_catch.

(** [DataContractStoreRepository.TREE_PATH], the path of the contract
    root tree; the constant belongs to another module and is left open. *)
Variable TREE_PATH : list Buffer.

(** An item of the list given to
    [proveManyDocumentsFromDifferentContracts]. *)
Record DocumentRef : Type := {
  dataContractId : Buffer;
  documentId : Buffer;
  type : string
}.

(** The body of the [documents.map] callback. *)
Definition document_path_query (d : DocumentRef) : PathQuery :=
  let dataContractsDocumentsPath :=
    [ dataContractId d;
      [x01];
      Buffer_from_string (type d);
      [x00] ] in
  {| pq_path := TREE_PATH ++ dataContractsDocumentsPath;
     pq_items := [ {| item_type := "key"; item_key := documentId d |} ] |}.

Definition proveManyDocumentsFromDifferentContracts
    (documents : list DocumentRef) : M (StorageResult (option Buffer)) :=
  let queries := List.map document_path_query documents in
  call_store (CallProveQueryMany queries) (proveQueryMany storage queries).

End Repository.

End DocumentRepository.

(** ** DriveClient *)

Module DriveClient.

(** The [error] member of a JSON-RPC reply. *)
Record rpc_error_object : Type := {
  err_code : option Z;
  err_message : option string;
  err_data : data
}.

(** [result.response] of an [abci_query] reply; each member may be
    absent. *)
Record abci_response : Type := {
  code : option Z;
  value : option string;
  info : option string
}.

(** What [this.client.request] resolves to: [{ result, error }].  A
    reply without [result], or whose [result] has no [response], has
    [result] absent here: reading through either is a [TypeError]. *)
Record rpc_reply : Type := {
  result : option abci_response;
  error : option rpc_error_object
}.

(** The parameters sent with [abci_query]. *)
Record request_options : Type := {
  ro_path : string;
  ro_data : string;
  ro_prove : bool
}.

Definition RPCError (c : Z) (msg : string) (d : data) : JS.error :=
  mkError "RPCError" msg (Some c) d.

(** [error.code || -32602]: zero is falsy. *)
Definition code_or_default (c : option Z) : Z :=
  match c with
  | Some z => if (z =? 0)%Z then (-32602)%Z else z
  | None => (-32602)%Z
  end.

(** [error.message || 'Internal error']: the empty string is falsy. *)
Definition message_or_default (m : option string) : string :=
  match m with
  | Some s => if String.eqb s "" then "Internal error" else s
  | None => "Internal error"
  end.

(** [{ ...options }]: the own properties of the options, none when the
    options are [undefined] or [null]. *)
Definition spread (options : option (list (string * data)))
  : list (string * data) :=
  match options with
  | Some ps => ps
  | None => []
  end.

(** A property written after a spread, in an object literal: the value of
    a key already there is replaced where it stands, a new key goes to the
    end. *)
Fixpoint set_field (k : string) (v : data) (ps : list (string * data))
  : list (string * data) :=
  match ps with
  | [] => [(k, v)]
  | (k', v') :: ps' =>
      if String.eqb k k' then (k, v) :: ps' else (k', v') :: set_field k v ps'
  end.

(** [{ ...options, contractId, type }] *)
Definition fetchDocuments_data (contractId type : data)
    (options : option (list (string * data))) : data :=
  DObject (set_field "type" type (set_field "contractId" contractId (spread options))).

Section Client.

(** The codecs ([cbor.encode], [Buffer.from(_, 'base64')]), the error
    factory of the gRPC server and the JSON-RPC client
    ([this.client.request]) are external. *)
Variable cbor_encode : data -> Buffer.
Variable base64_decode : string -> Buffer.
Variable createGrpcErrorFromDriveResponse : Z -> option string -> JS.error.
Variable client_request : string -> request_options -> outcome rpc_reply.

(** What [request] hands to the JSON-RPC client; [data] defaults to
    [{}] and [prove] to [false] when not passed. *)
Definition build_request_options (path : string) (data0 : option data)
    (prove0 : option bool) : request_options :=
  let data := match data0 with Some d => d | None => DObject [] end in
  let prove := match prove0 with Some b => b | None => false end in
  let encodedData := cbor_encode data in
  {| ro_path := path; ro_data := toHex encodedData; ro_prove := prove |}.

(** Lines 43-57: what is made of a reply. *)
Definition handle_reply (reply : rpc_reply) : outcome Buffer :=
  match error reply with
  | Some err =>
      Threw (RPCError (code_or_default (err_code err))
               (message_or_default (err_message err))
               (err_data err))
  | None =>
      match result reply with
      | None =>
          Threw (TypeError
            "Cannot destructure property 'response' of 'result' as it is undefined.")
      | Some response =>
          match code response with
          | None | Some 0%Z =>
              match value response with
              | Some v => Returned (base64_decode v)
              | None =>
                  Threw (TypeError
                    "The first argument must be of type string or an instance of Buffer, ArrayBuffer, or Array or an Array-like Object. Received undefined")
              end
          | Some c =>
              Threw (createGrpcErrorFromDriveResponse c (info response))
          end
      end
  end.

Definition request (path : string) (data0 : option data) (prove0 : option bool)
  : outcome Buffer :=
  match client_request "abci_query"
          (build_request_options path data0 prove0) with
  | Threw e => Threw e
  | Returned reply => handle_reply reply
  end.

(** [cbor.decode], which throws on bytes that are no CBOR. *)
Variable cbor_decode : Buffer -> outcome data.

Definition requestCbor (path : string) (data0 : option data) (prove0 : option bool)
  : outcome data :=
  match request path data0 prove0 with
  | Returned responseBuffer => cbor_decode responseBuffer
  | Threw e => Threw e
  end.

Definition fetchDataContract (contractId : data) (prove : option bool)
  : outcome Buffer :=
  request "/dataContracts" (Some (DObject [("id", contractId)])) prove.

Definition fetchDocuments (contractId type : data)
    (options : option (list (string * data))) (prove : option bool)
  : outcome Buffer :=
  request "/dataContracts/documents"
    (Some (fetchDocuments_data contractId type options)) prove.

Definition fetchIdentity (id : data) (prove : option bool) : outcome Buffer :=
  request "/identities" (Some (DObject [("id", id)])) prove.

Definition fetchIdentitiesByPublicKeyHashes (publicKeyHashes : data)
    (prove : option bool) : outcome Buffer :=
  request "/identities/by-public-key-hash"
    (Some (DObject [("publicKeyHashes", publicKeyHashes)])) prove.

(** [fetchProofs({ documents, identityIds, dataContractIds })]; a member
    that is not given is [undefined]. *)
Definition fetchProofs (documents identityIds dataContractIds : data)
  : outcome data :=
  requestCbor "/proofs"
    (Some (DObject [ ("documents", documents);
                     ("identityIds", identityIds);
                     ("dataContractIds", dataContractIds) ]))
    None.

End Client.

End DriveClient.

(** ** getPublicKeyFromPayoutScript *)

Module PayoutScript.

(** A payout script, seen through [toBuffer()]. *)
Record Script : Type := { toBuffer : Buffer }.

(** [new InvalidIdentityPublicKeyTypeError(type)] *)
Inductive thrown : Type :=
| InvalidIdentityPublicKeyTypeError (type : value).

(** [buffer.slice(start, end)] for [0 <= start <= end]: the bytes at the
    offsets from [start] up to, not including, [end], as far as the
    buffer goes. *)
Definition slice (b : Buffer) (start stop : nat) : Buffer :=
  firstn (stop - start) (skipn start b).

Section KeyTypes.

(** [IdentityPublicKey.TYPES.ECDSA_HASH160] and
    [IdentityPublicKey.TYPES.BIP13_SCRIPT_HASH], numbers declared by the
    protocol library. *)
Variable ECDSA_HASH160 : Z.
Variable BIP13_SCRIPT_HASH : Z.

(** The [switch] compares with [===]: a [type] that is not a number
    matches no case. *)
Definition getPublicKeyFromPayoutScript (payoutScript : Script) (type : value)
  : thrown + Buffer :=
  match type with
  | VNum t =>
      if (t =? ECDSA_HASH160)%Z then inr (slice (toBuffer payoutScript) 3 23)
      else if (t =? BIP13_SCRIPT_HASH)%Z then inr (slice (toBuffer payoutScript) 2 22)
      else inl (InvalidIdentityPublicKeyTypeError type)
  | _ => inl (InvalidIdentityPublicKeyTypeError type)
  end.

End KeyTypes.

End PayoutScript.

(** ** ensureHomeDir (dashmate) *)

Module HomeDir.

(** Calls made to [fs], in order. *)
Inductive fs_call : Type :=
| CallExistsSync (path : string)
| CallAccessSync (path : string) (mode : Z)
| CallMkdirSync (path : string)
| CallChmodSync (path : string) (mode : Z).

(** What the file system answers: [existsSync] never throws, the others
    return nothing or throw. *)
Record FileSystem : Type := {
  existsSync : string -> bool;
  accessSync : string -> Z -> outcome unit;
  mkdirSync : string -> outcome unit;
  chmodSync : string -> Z -> outcome unit
}.

(** [fs.constants.R_OK] and [fs.constants.W_OK] *)
Definition R_OK : Z := 4.
Definition W_OK : Z := 2.

(** [new HomeDirIsNotWritableError(path)] and
    [new CouldNotCreateHomeDirError(path)] *)
Inductive thrown : Type :=
| HomeDirIsNotWritableError (path : string)
| CouldNotCreateHomeDirError (path : string).

Section EnsureHomeDir.

(** [HOME_DIR_PATH] of the constants module, and the file system. *)
Variable HOME_DIR_PATH : string.
Variable fs : FileSystem.

(** The result, and the calls made to [fs] after those of [trace]. *)
Definition ensureHomeDir (trace : list fs_call) : (thrown + string) * list fs_call :=
  let trace := trace ++ [CallExistsSync HOME_DIR_PATH] in
  if existsSync fs HOME_DIR_PATH then
    let trace := trace ++ [CallAccessSync HOME_DIR_PATH (Z.lor R_OK W_OK)] in
    match accessSync fs HOME_DIR_PATH (Z.lor R_OK W_OK) with
    | Threw e => (inl (HomeDirIsNotWritableError HOME_DIR_PATH), trace)
    | Returned _ => (inr HOME_DIR_PATH, trace)
    end
  else
    let trace := trace ++ [CallMkdirSync HOME_DIR_PATH] in
    match mkdirSync fs HOME_DIR_PATH with
    | Threw e => (inl (CouldNotCreateHomeDirError HOME_DIR_PATH), trace)
    | Returned _ =>
        let trace := trace ++ [CallChmodSync HOME_DIR_PATH 448] in
        match chmodSync fs HOME_DIR_PATH 448 with
        | Threw e => (inl (CouldNotCreateHomeDirError HOME_DIR_PATH), trace)
        | Returned _ => (inr HOME_DIR_PATH, trace)
        end
    end.

End EnsureHomeDir.

End HomeDir.

(** ** The form of the masternode addresses (dashmate) *)

Module MasternodeAddresses.

(** What the [validate] function of a form returns: [true], [false] or a
    message. *)
Inductive validation : Type :=
| Accepted
| Rejected
| Complaint (msg : string).

Section Form.

(** [validateAddressWithNetwork], the validator of one address for the
    preset of the context. *)
Variable validateAddressWithNetwork : string -> bool.

(** The [validate] function of the form [keys]. *)
Definition validate (ownerAddress votingAddress payoutAddress : string)
  : validation :=
  if negb (validateAddressWithNetwork ownerAddress)
     || negb (validateAddressWithNetwork votingAddress)
     || negb (validateAddressWithNetwork payoutAddress)
  then Rejected
  else if String.eqb ownerAddress payoutAddress
          || String.eqb votingAddress payoutAddress
  then Complaint
         "The payout address may not be the same as the owner or voting address"
  else Accepted.

End Form.

End MasternodeAddresses.

(** * Vocabulary of the statements *)

Import DocumentRepository.

(** [s] is [p] followed by something. *)
Definition has_prefix (p s : string) : Prop := exists rest, s = (p ++ rest)%string.

Definition zero_storage_operation (processingCost : Z) : PreCalculatedOperation :=
  {| op_storageCost := 0; op_processingCost := processingCost; op_feeRefunds := [] |}.

Section StoreAnswers.

Variable storage : GroveDBStore.
Variable dataContract : DataContract.
Variable documentType : string.

(** What the store answers to the query that [find] makes when it is
    called with [options0] on heap [h]. *)
Definition find_store_answer (options0 : value) (h : heap)
  : outcome (list Document * Z) :=
  let (h0, options) := default_empty_object h options0 in
  let '(h1, (query, useTransaction)) := find_query h0 options in
  queryDocuments storage dataContract documentType
    (find_epochIndex h1 options) h1 query useTransaction.

(** The same for [prove]. *)
Definition prove_store_answer (options0 : value) (h : heap)
  : outcome (Buffer * Z) :=
  let (h0, options) := default_empty_object h options0 in
  let '(h1, (query, useTransaction)) := prove_query h0 options in
  proveDocumentsQuery storage dataContract documentType h1 query useTransaction.

End StoreAnswers.

(** ** Stores, errors and worlds used in the examples *)

Definition example_fee : FeeResult :=
  {| storageFee := 10; processingFee := 3; feeRefunds := [] |}.

(** A store that gives the same answer to every call of a kind. *)
Definition example_store (query : outcome (list Document * Z))
    (proof : outcome (Buffer * Z)) (mutation : outcome FeeResult)
    (rootHash : outcome Buffer) : GroveDBStore :=
  {| createDocument := fun _ _ _ _ => mutation;
     updateDocument := fun _ _ _ _ => mutation;
     deleteDocument := fun _ _ _ _ _ _ => mutation;
     queryDocuments := fun _ _ _ _ _ _ => query;
     proveDocumentsQuery := fun _ _ _ _ _ => proof;
     proveQueryMany := fun _ => Returned (Build_StorageResult None []);
     getRootHash := fun _ _ => rootHash |}.

Definition store_error (msg : string) : error :=
  mkError "Error" msg None DUndefined.

Definition example_contract : DataContract :=
  {| getId := [x2a]; contract_body := [] |}.

Definition example_document : Document := {| toBuffer := [x01; xff] |}.

Definition world_of (h : heap) : world := mkWorld h [] [].

(** Stand-ins for the external parts of [DriveClient]: an encoder that
    always yields the empty CBOR map, a decoder that takes the text as the
    bytes, a client that always receives the same reply. *)
Definition stub_cbor_encode (d : data) : Buffer := [xa0].

Definition stub_base64_decode (s : string) : Buffer := list_byte_of_string s.

Definition stub_grpc_error (c : Z) (info : option string) : error :=
  mkError "GrpcError" (match info with Some s => s | None => "" end) (Some c)
    DUndefined.

Definition client_receiving (reply : DriveClient.rpc_reply)
  : string -> DriveClient.request_options -> outcome DriveClient.rpc_reply :=
  fun _ _ => Returned reply.

Definition reply_with_error (c : option Z) (m : option string) : DriveClient.rpc_reply :=
  {| DriveClient.result := None;
     DriveClient.error :=
       Some {| DriveClient.err_code := c;
               DriveClient.err_message := m;
               DriveClient.err_data := DUndefined |} |}.

Definition reply_with_response (c : option Z) (v i : option string)
  : DriveClient.rpc_reply :=
  {| DriveClient.result :=
       Some {| DriveClient.code := c; DriveClient.value := v; DriveClient.info := i |};
     DriveClient.error := None |}.

(** ** Mutations and their log entries *)

(** What a mutation gives its caller when nothing interferes: the fee
    operation made of the store's answer, or the store's exception. *)
Definition mutation_result (answer : outcome FeeResult)
  : outcome (StorageResult unit) :=
  match answer with
  | Returned feeResult => Returned (Build_StorageResult tt [fee_operation feeResult])
  | Threw e => Threw e
  end.

(** The entry [create] and [update] hand to the logger. *)
Definition document_entry (sha256 : Buffer -> Buffer) (msg : string)
    (document : Document) (h : heap) (options : value) (appHash : Buffer)
  : log_entry :=
  LogDocument msg
    (toHex (toBuffer document))
    (toHex (sha256 (toBuffer document)))
    (toBoolean (getProperty h options "useTransaction"))
    (toBoolean (getProperty h options "dryRun"))
    (toHex appHash).

(** The entry [delete] hands to the logger. *)
Definition delete_entry (identifier_toString : Identifier -> string)
    (dataContract : DataContract) (documentType : string) (id : Identifier)
    (h : heap) (options : value) (appHash : Buffer) : log_entry :=
  LogDelete "deleteDocument"
    (identifier_toString (getId dataContract))
    documentType
    (identifier_toString id)
    (toBoolean (getProperty h options "useTransaction"))
    (toHex appHash).

(** How an operation wrapped in the logging [finally] ends, given how the
    operation itself ended ([original]) and what [getRootHash] answers:
    without a logger the original completion stands and nothing is
    logged; with one, the entry is logged and the original completion
    stands when the root hash is obtained, and when [getRootHash] throws
    nothing is logged and its exception is what the caller gets. *)
Definition logged_exit {A} (logger : bool) (original : outcome A)
    (rootHash : outcome Buffer) (entry : Buffer -> log_entry)
    (before : world) (r : outcome A * world) : Prop :=
  match logger, rootHash with
  | false, _ => fst r = original /\ w_log (snd r) = w_log before
  | true, Returned appHash =>
      fst r = original /\ w_log (snd r) = w_log before ++ [entry appHash]
  | true, Threw e => fst r = Threw e /\ w_log (snd r) = w_log before
  end.

Definition stub_sha256 (b : Buffer) : Buffer := [x00].

Definition stub_identifier_toString (b : Identifier) : string := toHex b.

(** ** Batched proofs *)

(** Modelled from the spec: [GroveDBStore.proveQueryMany] is outside the
    code embedded here.  The spec has the failure of a sub-path fail the whole
    multi-path request, no partial proof being returned: when the request
    for one path alone fails, so does every request that includes that
    path. *)
Definition fails_as_a_whole (storage : GroveDBStore) : Prop :=
  forall (queries : list PathQuery) (q : PathQuery) (e : error),
    In q queries ->
    proveQueryMany storage [q] = Threw e ->
    exists e', proveQueryMany storage queries = Threw e'.

(** A store that proves the paths it [knows] and fails on a request
    that has any other path. *)
Definition example_proof_store (knows : PathQuery -> bool) : GroveDBStore :=
  {| createDocument := fun _ _ _ _ => Returned example_fee;
     updateDocument := fun _ _ _ _ => Returned example_fee;
     deleteDocument := fun _ _ _ _ _ _ => Returned example_fee;
     queryDocuments := fun _ _ _ _ _ _ => Returned ([], 0%Z);
     proveDocumentsQuery := fun _ _ _ _ _ => Returned ([], 0%Z);
     proveQueryMany := fun queries =>
       if forallb knows queries
       then Returned (Build_StorageResult
                        (Some (List.concat (List.map (fun q => List.concat (pq_path q)) queries)))
                        [])
       else Threw (store_error "path not found");
     getRootHash := fun _ _ => Returned [] |}.

(** Knows the paths under the contract whose identifier is [2a]. *)
Definition knows_contract_2a (q : PathQuery) : bool :=
  match pq_path q with
  | _ :: [x2a] :: _ => true
  | _ => false
  end.

Definition example_tree_path : list Buffer := [[x01]].

Definition document_ref_a : DocumentRef :=
  {| dataContractId := [x2a]; documentId := [x07]; type := "note" |}.

Definition document_ref_b : DocumentRef :=
  {| dataContractId := [x2b]; documentId := [x08]; type := "note" |}.

(** ** Query payloads as data *)

(** The payloads of the queries in a trace of store calls, each read to
    depth [n] off the heap it was sent with. *)
Fixpoint forwarded_queries (n : nat) (calls : list drive_call) : list data :=
  match calls with
  | [] => []
  | CallQueryDocuments _ _ _ h query _ :: calls' =>
      reify n h query :: forwarded_queries n calls'
  | CallProveDocumentsQuery _ _ h query _ :: calls' =>
      reify n h query :: forwarded_queries n calls'
  | _ :: calls' => forwarded_queries n calls'
  end.

(** Data read in full: no part was cut at the depth limit.  Data of an
    object that reaches itself is never complete. *)
Fixpoint complete (d : data) : bool :=
  match d with
  | DObject ps => forallb (fun kv => complete (snd kv)) ps
  | DArray ds => forallb complete ds
  | DDeeper => false
  | _ => true
  end.

Fixpoint data_lookup (k : string) (ps : list (string * data)) : option data :=
  match ps with
  | [] => None
  | (k', d) :: ps' => if String.eqb k k' then Some d else data_lookup k ps'
  end.

(** The field [k] of an object read as data. *)
Definition data_get (k : string) (d : data) : option data :=
  match d with
  | DObject ps => data_lookup k ps
  | _ => None
  end.

Definition data_keys (d : data) : list string :=
  match d with
  | DObject ps => List.map fst ps
  | _ => []
  end.

Definition is_object (d : data) : bool :=
  match d with DObject _ => true | _ => false end.

Definition is_undefined_field (o : option data) : bool :=
  match o with Some DUndefined => true | _ => false end.

Definition is_control (controls : list string) (k : string) : bool :=
  existsb (String.eqb k) controls.

(** [payload] is the object [original] without the fields named in
    [controls] and without the fields whose value is [undefined]; the
    other fields are as in [original], in the same order, and there is no
    further field. *)
Definition stripped_of (controls : list string) (original payload : data) : Prop :=
  is_object payload = true
  /\ (forall k, In k controls -> data_get k payload = None)
  /\ (forall k, data_get k payload <> Some DUndefined)
  /\ (forall k, ~ In k controls -> data_get k original <> Some DUndefined ->
                data_get k payload = data_get k original)
  /\ (forall k d, data_get k payload = Some d -> data_get k original = Some d)
  /\ data_keys payload =
     List.filter
       (fun k => negb (is_control controls k)
                 && negb (is_undefined_field (data_get k original)))
       (data_keys original).

(** The computation of such a payload. *)
Definition data_strip (controls : list string) (d : data) : data :=
  match d with
  | DObject ps =>
      DObject
        (List.filter
           (fun kv => negb (is_control controls (fst kv))
                      && negb (is_undefined_field (data_lookup (fst kv) ps)))
           ps)
  | _ => d
  end.

(** ** Pagination cursors *)

(** The object [v] sets the field [k]: reading it gives something else
    than [undefined]. *)
Definition sets (h : heap) (v : value) (k : string) : Prop :=
  getProperty h v k <> VUndefined.

(** Modelled from the spec: the query translation of the store (rs-drive)
    is outside the code embedded here.  The spec has it reject a query that
    sets both [startAt] and [startAfter], and has the store report a
    malformed query by an error whose message starts with [query: ]. *)
Definition rejects_two_cursors (storage : GroveDBStore) : Prop :=
  forall (h : heap) (query : value),
    sets h query "startAt" -> sets h query "startAfter" ->
    (forall dataContract documentType epochIndex useTransaction,
        exists e,
          queryDocuments storage dataContract documentType epochIndex h query
            useTransaction = Threw e
          /\ has_prefix "query: " (message e))
    /\ (forall dataContract documentType useTransaction,
          exists e,
            proveDocumentsQuery storage dataContract documentType h query
              useTransaction = Threw e
            /\ has_prefix "query: " (message e)).

Definition has_both_cursors (h : heap) (query : value) : bool :=
  negb (value_eqb_undefined (getProperty h query "startAt"))
  && negb (value_eqb_undefined (getProperty h query "startAfter")).

(** A store that only checks the cursors. *)
Definition cursor_checking_store : GroveDBStore :=
  {| createDocument := fun _ _ _ _ => Returned example_fee;
     updateDocument := fun _ _ _ _ => Returned example_fee;
     deleteDocument := fun _ _ _ _ _ _ => Returned example_fee;
     queryDocuments := fun _ _ _ h query _ =>
       if has_both_cursors h query
       then Threw (store_error "query: only one of startAt or startAfter should be provided")
       else Returned ([], 0%Z);
     proveDocumentsQuery := fun _ _ h query _ =>
       if has_both_cursors h query
       then Threw (store_error "query: only one of startAt or startAfter should be provided")
       else Returned ([], 0%Z);
     proveQueryMany := fun _ => Returned (Build_StorageResult None []);
     getRootHash := fun _ _ => Returned [] |}.

(** ** Objects on the heap *)

(** A heap that is [h] followed by further objects. *)
Definition extends (h h' : heap) : Prop := exists new, h' = h ++ new.

(** The value read at key [k] of a property list. *)
Definition prop_value (k : string) (ps : list (string * value)) : value :=
  match lookup_prop k ps with Some x => x | None => VUndefined end.

(** Whether a property of [ps] survives the removal of the [controls] and
    of the keys that read as [undefined]. *)
Definition kept (controls : list string) (ps : list (string * value))
    (kv : string * value) : bool :=
  negb (is_control controls (fst kv))
  && negb (value_eqb_undefined (prop_value (fst kv) ps)).

Definition strip_props (controls : list string) (ps : list (string * value))
  : list (string * value) :=
  List.filter (kept controls ps) ps.

Definition relocate_props (n : nat) (ps : list (string * value))
  : list (string * value) :=
  List.map (fun kv => (fst kv, Lodash.relocate n (snd kv))) ps.

(** One step of the loop that removes the [undefined] options, on the
    property list. *)
Definition remove_if_undefined (ps : list (string * value)) (k : string)
  : list (string * value) :=
  if value_eqb_undefined (prop_value k ps) then remove_prop k ps else ps.

(** Options as a caller of [find] builds them:
    [{ where: ['a', '==', 1], limit: 5, startAt: undefined,
       useTransaction: true, dryRun: false, blockInfo: { epoch: 3 } }]. *)
Definition example_options_heap : heap :=
  [ CObject [ ("where", VRef 1); ("limit", VNum 5); ("startAt", VUndefined);
              ("useTransaction", VBool true); ("dryRun", VBool false);
              ("blockInfo", VRef 2) ];
    CArray [VStr "a"; VStr "=="; VNum 1];
    CObject [ ("epoch", VNum 3) ] ].

(** [{ startAt: <01>, startAfter: <02>, limit: 5 }] *)
Definition two_cursors_heap : heap :=
  [ CObject [ ("startAt", VRef 1); ("startAfter", VRef 2); ("limit", VNum 5) ];
    CBuffer [x01];
    CBuffer [x02] ].

(** ** Payout scripts used in the examples *)

(** A pay-to-public-key-hash script: three bytes, the 20 bytes of the
    hash, two bytes. *)
Definition example_key_hash : Buffer :=
  [x10; x11; x12; x13; x14; x15; x16; x17; x18; x19;
   x1a; x1b; x1c; x1d; x1e; x1f; x20; x21; x22; x23].

Definition example_p2pkh_script : PayoutScript.Script :=
  {| PayoutScript.toBuffer := [x76; xa9; x14] ++ example_key_hash ++ [x88; xac] |}.

(** ** Hexadecimal digits *)

(** The number a hexadecimal digit stands for. *)
Definition hex_value (c : ascii) : N :=
  match c with
  | "0" => 0 | "1" => 1 | "2" => 2 | "3" => 3 | "4" => 4 | "5" => 5
  | "6" => 6 | "7" => 7 | "8" => 8 | "9" => 9 | "a" => 10 | "b" => 11
  | "c" => 12 | "d" => 13 | "e" => 14 | _ => 15
  end%char%N.

(** ** CreditsDistributionPoolCommonStoreRepository (js-drive) *)

Module CreditsDistributionPoolRepository.

(** [Buffer.from('CreditsDistributionPool')] *)
Definition COMMON_STORE_KEY_NAME : Buffer :=
  Buffer_from_string "CreditsDistributionPool".

(** [const { amount } = decoded]: a [TypeError] on [undefined] and [null],
    [undefined] when there is no such property. *)
Definition destructure_amount (decoded : data) : outcome data :=
  match decoded with
  | DUndefined | DNull =>
      Threw (TypeError "Cannot destructure property 'amount' of 'cbor.decode(...)' as it is undefined.")
  | DObject ps =>
      Returned (match data_lookup "amount" ps with
                | Some d => d
                | None => DUndefined
                end)
  | _ => Returned DUndefined
  end.

Section Repository.

(** The class [CreditsDistributionPool], with its constructor (called
    with [undefined] when no amount is given) and [toJSON]; the store
    with its states, [put] and [get], [get] answering [null] as [None];
    the transactions; the codecs of the [cbor] package. *)
Variable CreditsDistributionPool : Type.
Variable new_CreditsDistributionPool : data -> CreditsDistributionPool.
Variable toJSON : CreditsDistributionPool -> data.
Variable StoreState : Type.
Variable Transaction : Type.
Variable put :
  StoreState -> Buffer -> Buffer -> option Transaction -> outcome unit * StoreState.
Variable get :
  StoreState -> Buffer -> option Transaction -> outcome (option Buffer).
Variable encodeCanonical : data -> Buffer.
Variable decode : Buffer -> outcome data.

(** [store] returns [this]; what is kept here is how the call ended and
    the state of the store after it. *)
Definition store (creditsDistributionPool : CreditsDistributionPool)
    (transaction : option Transaction) (s : StoreState)
  : outcome unit * StoreState :=
  put s COMMON_STORE_KEY_NAME
    (encodeCanonical (toJSON creditsDistributionPool)) transaction.

Definition fetch (transaction : option Transaction) (s : StoreState)
  : outcome CreditsDistributionPool :=
  match get s COMMON_STORE_KEY_NAME transaction with
  | Threw e => Threw e
  | Returned None => Returned (new_CreditsDistributionPool DUndefined)
  | Returned (Some creditsDistributionPoolEncoded) =>
      match decode creditsDistributionPoolEncoded with
      | Threw e => Threw e
      | Returned decoded =>
          match destructure_amount decoded with
          | Threw e => Threw e
          | Returned amount => Returned (new_CreditsDistributionPool amount)
          end
      end
  end.

End Repository.

End CreditsDistributionPoolRepository.

(** ** File systems, pools and stores used in the examples *)

(** A file system without the directory, where it can be created. *)
Definition fresh_file_system : HomeDir.FileSystem :=
  {| HomeDir.existsSync := fun _ => false;
     HomeDir.accessSync := fun _ _ => Threw (store_error "ENOENT");
     HomeDir.mkdirSync := fun _ => Returned tt;
     HomeDir.chmodSync := fun _ _ => Returned tt |}.

(** A file system with the directory, which cannot be written to. *)
Definition read_only_file_system : HomeDir.FileSystem :=
  {| HomeDir.existsSync := fun _ => true;
     HomeDir.accessSync := fun _ _ => Threw (store_error "EACCES");
     HomeDir.mkdirSync := fun _ => Threw (store_error "EEXIST");
     HomeDir.chmodSync := fun _ _ => Threw (store_error "EPERM") |}.

(** A store that keeps the pairs put into it, latest first, whatever the
    transaction. *)
Definition list_store_put (s : list (Buffer * Buffer)) (k v : Buffer)
    (transaction : option unit) : outcome unit * list (Buffer * Buffer) :=
  (Returned tt, (k, v) :: s).

Fixpoint list_store_lookup (s : list (Buffer * Buffer)) (k : Buffer)
  : option Buffer :=
  match s with
  | [] => None
  | (k', v) :: s' =>
      if List.list_eq_dec Byte.byte_eq_dec k k' then Some v else list_store_lookup s' k
  end.

Definition list_store_get (s : list (Buffer * Buffer)) (k : Buffer)
    (transaction : option unit) : outcome (option Buffer) :=
  Returned (list_store_lookup s k).

(** A pool that is its amount. *)
Definition amount_pool_new (d : data) : Z :=
  match d with DNum z => z | _ => 0%Z end.

Definition amount_pool_toJSON (z : Z) : data := DObject [("amount", DNum z)].

(** Codecs for the one value [{ amount: 5 }]. *)
Definition stub_encodeCanonical (d : data) : Buffer := [xa1].

Definition stub_decode (b : Buffer) : outcome data :=
  Returned (DObject [("amount", DNum 5)]).

(** * Properties *)

(** ** Strings: prefixes and what is left after one *)

Lemma string_length_app (p r : string) :
  String.length (p ++ r)%string = String.length p + String.length r.
Proof. induction p as [|c p IH]; simpl; [reflexivity | now rewrite IH]. Qed.

Lemma startsWith_has_prefix (s p : string) :
  startsWith s p = true <-> has_prefix p s.
Proof.
  unfold startsWith, has_prefix. revert s.
  induction p as [|c p IH]; intros s.
  - split; [intros _; now exists s | intros _; now destruct s].
  - destruct s as [|d s]; simpl.
    + split; [discriminate | intros [r Hr]; discriminate].
    + destruct (ascii_dec c d) as [->|Hne].
      * rewrite IH. split; intros [r Hr]; exists r; simpl in *; congruence.
      * split; [discriminate | intros [r Hr]; simpl in Hr; congruence].
Qed.

Lemma startsWith_false (s p : string) :
  ~ has_prefix p s -> startsWith s p = false.
Proof.
  intros H. destruct (startsWith s p) eqn:E; [|reflexivity].
  now apply startsWith_has_prefix in E.
Qed.

Lemma String_substring_all (r : string) :
  String.substring 0 (String.length r) r = r.
Proof. induction r as [|c r IH]; simpl; [reflexivity | now rewrite IH]. Qed.

Lemma String_substring_skip (p r : string) (m : nat) :
  String.substring (String.length p) m (p ++ r)%string = String.substring 0 m r.
Proof. induction p as [|c p IH]; simpl; [reflexivity | apply IH]. Qed.

(** [(p + rest).substring(p.length, (p + rest).length)] is [rest]. *)
Lemma substring_after_prefix (p rest : string) :
  JS.substring (p ++ rest)%string (String.length p) (String.length (p ++ rest)%string) = rest.
Proof.
  unfold JS.substring. rewrite string_length_app.
  replace (Nat.min (String.length p) (String.length p + String.length rest))
    with (String.length p) by lia.
  replace (Nat.min (String.length p + String.length rest)
             (String.length p + String.length rest))
    with (String.length p + String.length rest) by lia.
  replace (Nat.min (String.length p) (String.length p + String.length rest))
    with (String.length p) by lia.
  replace (Nat.max (String.length p) (String.length p + String.length rest)
           - String.length p)
    with (String.length rest) by lia.
  rewrite String_substring_skip. apply String_substring_all.
Qed.

(** The four prefixes start with different letters. *)
Lemma prefixes_exclusive (s : string) :
  (has_prefix "query: " s ->
     ~ has_prefix "structure: " s /\ ~ has_prefix "contract: " s
     /\ ~ has_prefix "protocol: " s)
  /\ (has_prefix "structure: " s ->
     ~ has_prefix "query: " s /\ ~ has_prefix "contract: " s
     /\ ~ has_prefix "protocol: " s)
  /\ (has_prefix "contract: " s ->
     ~ has_prefix "query: " s /\ ~ has_prefix "structure: " s
     /\ ~ has_prefix "protocol: " s)
  /\ (has_prefix "protocol: " s ->
     ~ has_prefix "query: " s /\ ~ has_prefix "structure: " s
     /\ ~ has_prefix "contract: " s).
Proof.
  unfold has_prefix.
  split; [|split; [|split]]; intros [r1 H1]; (split; [|split]);
    intros [r2 H2]; subst s; simpl in H2; discriminate.
Qed.

(** ** [find] and [prove]: one call to the store, then its answer *)

Section FindAndProve.

Variable storage : GroveDBStore.
Variable dataContract : DataContract.
Variable documentType : string.

Lemma find_outcome (options0 : value) (w : world) :
  fst (find storage dataContract documentType options0 w) =
  match find_store_answer storage dataContract documentType options0 (w_heap w) with
  | Returned (documents, processingCost) =>
      Returned (Build_StorageResult documents
                  [zero_storage_operation processingCost])
  | Threw e => fst (@find_catch (StorageResult (list Document)) e w)
  end.
Proof.
  unfold find, find_store_answer, bind, on_heap, try_catch, call_store,
    get_heap, ret; simpl.
  destruct (default_empty_object (w_heap w) options0) as [h0 options]; simpl.
  destruct (find_query h0 options) as [h1 [query useTransaction]]; simpl.
  destruct (queryDocuments _ _ _ _ _ _ _) as [[documents cost]|e]; simpl.
  - reflexivity.
  - unfold find_catch, throw.
    repeat match goal with |- context [if ?b then _ else _] => destruct b end;
      reflexivity.
Qed.

Lemma prove_outcome (options0 : value) (w : world) :
  fst (prove storage dataContract documentType options0 w) =
  match prove_store_answer storage dataContract documentType options0 (w_heap w) with
  | Returned (proof, processingCost) =>
      Returned (Build_StorageResult proof
                  [zero_storage_operation processingCost])
  | Threw e => fst (@prove_catch (StorageResult Buffer) e w)
  end.
Proof.
  unfold prove, prove_store_answer, bind, on_heap, try_catch, call_store,
    get_heap, ret; simpl.
  destruct (default_empty_object (w_heap w) options0) as [h0 options]; simpl.
  destruct (prove_query h0 options) as [h1 [query useTransaction]]; simpl.
  destruct (proveDocumentsQuery _ _ _ _ _ _) as [[proof cost]|e]; simpl.
  - reflexivity.
  - unfold prove_catch, throw.
    repeat match goal with |- context [if ?b then _ else _] => destruct b end;
      reflexivity.
Qed.

(** *** The [catch] clauses *)

Lemma find_catch_strips {A} (p rest : string) (e : error) (w : world) :
  p = "query: " \/ p = "structure: " \/ p = "contract: " \/ p = "protocol: " ->
  message e = (p ++ rest)%string ->
  @find_catch A e w = (Threw (InvalidQueryError rest), w).
Proof.
  intros Hp Hm.
  assert (Hpre : has_prefix p (message e)) by (now exists rest).
  assert (Hsub := substring_after_prefix p rest). rewrite <- Hm in Hsub.
  destruct (prefixes_exclusive (message e)) as (Hq & Hs & Hc & Hpr).
  unfold find_catch, throw.
  destruct Hp as [-> | [-> | [-> | ->]]].
  - rewrite (proj2 (startsWith_has_prefix _ _) Hpre). simpl in Hsub.
    now rewrite Hsub.
  - destruct (Hs Hpre) as (N1 & _).
    rewrite (startsWith_false _ _ N1), (proj2 (startsWith_has_prefix _ _) Hpre).
    simpl in Hsub. now rewrite Hsub.
  - destruct (Hc Hpre) as (N1 & N2 & _).
    rewrite (startsWith_false _ _ N1), (startsWith_false _ _ N2),
      (proj2 (startsWith_has_prefix _ _) Hpre).
    simpl in Hsub. now rewrite Hsub.
  - destruct (Hpr Hpre) as (N1 & N2 & N3).
    rewrite (startsWith_false _ _ N1), (startsWith_false _ _ N2),
      (startsWith_false _ _ N3), (proj2 (startsWith_has_prefix _ _) Hpre).
    simpl in Hsub. now rewrite Hsub.
Qed.

Lemma find_catch_rethrows {A} (e : error) (w : world) :
  ~ has_prefix "query: " (message e) ->
  ~ has_prefix "structure: " (message e) ->
  ~ has_prefix "contract: " (message e) ->
  ~ has_prefix "protocol: " (message e) ->
  @find_catch A e w = (Threw e, w).
Proof.
  intros N1 N2 N3 N4. unfold find_catch, throw.
  now rewrite (startsWith_false _ _ N1), (startsWith_false _ _ N2),
    (startsWith_false _ _ N3), (startsWith_false _ _ N4).
Qed.

Lemma prove_catch_strips {A} (p rest : string) (e : error) (w : world) :
  p = "query: " \/ p = "structure: " \/ p = "contract: " ->
  message e = (p ++ rest)%string ->
  @prove_catch A e w = (Threw (InvalidQueryError rest), w).
Proof.
  intros Hp Hm.
  assert (Hpre : has_prefix p (message e)) by (now exists rest).
  assert (Hsub := substring_after_prefix p rest). rewrite <- Hm in Hsub.
  destruct (prefixes_exclusive (message e)) as (Hq & Hs & Hc & Hpr).
  unfold prove_catch, throw.
  destruct Hp as [-> | [-> | ->]].
  - rewrite (proj2 (startsWith_has_prefix _ _) Hpre). simpl in Hsub.
    now rewrite Hsub.
  - destruct (Hs Hpre) as (N1 & _).
    rewrite (startsWith_false _ _ N1), (proj2 (startsWith_has_prefix _ _) Hpre).
    simpl in Hsub. now rewrite Hsub.
  - destruct (Hc Hpre) as (N1 & N2 & _).
    rewrite (startsWith_false _ _ N1), (startsWith_false _ _ N2),
      (proj2 (startsWith_has_prefix _ _) Hpre).
    simpl in Hsub. now rewrite Hsub.
Qed.

Lemma prove_catch_rethrows {A} (e : error) (w : world) :
  ~ has_prefix "query: " (message e) ->
  ~ has_prefix "structure: " (message e) ->
  ~ has_prefix "contract: " (message e) ->
  @prove_catch A e w = (Threw e, w).
Proof.
  intros N1 N2 N3. unfold prove_catch, throw.
  now rewrite (startsWith_false _ _ N1), (startsWith_false _ _ N2),
    (startsWith_false _ _ N3).
Qed.

End FindAndProve.

(** ** Classification of store errors (C1, C2) *)

Lemma prefixed_differs (p rest : string) :
  p <> ""%string -> (p ++ rest)%string <> rest.
Proof.
  intros Hp Heq. apply (f_equal String.length) in Heq.
  rewrite string_length_app in Heq. destruct p; [congruence | simpl in Heq; lia].
Qed.

(** C1.  When the store throws [e] at the query of [find]: if the message
    of [e] is one of the prefixes [query: ], [structure: ], [contract: ],
    [protocol: ] followed by [rest], [find] throws an [InvalidQueryError]
    whose message is [rest]; if the message has none of these prefixes,
    [find] throws [e] itself. *)
Theorem find_reclassifies_prefixed_errors
    (storage : GroveDBStore) (dataContract : DataContract)
    (documentType : string) (options : value) (w : world) (e : error) :
  find_store_answer storage dataContract documentType options (w_heap w) = Threw e ->
  (forall p rest,
      In p ["query: "; "structure: "; "contract: "; "protocol: "] ->
      message e = (p ++ rest)%string ->
      fst (find storage dataContract documentType options w)
      = Threw (InvalidQueryError rest))
  /\ ((forall p,
         In p ["query: "; "structure: "; "contract: "; "protocol: "] ->
         ~ has_prefix p (message e)) ->
      fst (find storage dataContract documentType options w) = Threw e).
Proof.
  intros Hanswer. rewrite find_outcome, Hanswer. split.
  - intros p rest Hp Hm.
    rewrite (find_catch_strips p rest); [reflexivity | | exact Hm].
    simpl in Hp. intuition.
  - intros Hnone.
    rewrite find_catch_rethrows; [reflexivity | apply Hnone; simpl; auto ..].
Qed.

Lemma find_reclassifies_prefixed_errors_witness :
  find_store_answer
    (example_store (Threw (store_error "query: bad clause"))
       (Returned ([], 0%Z)) (Returned example_fee) (Returned []))
    example_contract "note" VUndefined (w_heap (world_of []))
  = Threw (store_error "query: bad clause")
  /\ fst (find
            (example_store (Threw (store_error "query: bad clause"))
               (Returned ([], 0%Z)) (Returned example_fee) (Returned []))
            example_contract "note" VUndefined (world_of []))
     = Threw (InvalidQueryError "bad clause").
Proof.
  split; [reflexivity |].
  apply (proj1 (find_reclassifies_prefixed_errors
                  (example_store (Threw (store_error "query: bad clause"))
                     (Returned ([], 0%Z)) (Returned example_fee) (Returned []))
                  example_contract "note" VUndefined (world_of [])
                  (store_error "query: bad clause") eq_refl)
           "query: "%string "bad clause"%string).
  - simpl. auto.
  - reflexivity.
Defined.

(** C2.  When the store throws [e] at the query of [prove]: a message
    prefixed with [query: ], [structure: ] or [contract: ] gives an
    [InvalidQueryError] carrying the rest of the message; a message
    prefixed with [protocol: ] is not reclassified, [prove] throws [e]
    itself, where [find], given the same error, throws an
    [InvalidQueryError], which is another error than [e]. *)
Theorem prove_reclassifies_all_but_protocol
    (storage : GroveDBStore) (dataContract : DataContract)
    (documentType : string) (options : value) (w : world) (e : error) :
  prove_store_answer storage dataContract documentType options (w_heap w) = Threw e ->
  (forall p rest,
      In p ["query: "; "structure: "; "contract: "] ->
      message e = (p ++ rest)%string ->
      fst (prove storage dataContract documentType options w)
      = Threw (InvalidQueryError rest))
  /\ (forall rest,
        message e = ("protocol: " ++ rest)%string ->
        fst (prove storage dataContract documentType options w) = Threw e
        /\ (find_store_answer storage dataContract documentType options (w_heap w)
            = Threw e ->
            fst (find storage dataContract documentType options w)
            = Threw (InvalidQueryError rest)
            /\ InvalidQueryError rest <> e)).
Proof.
  intros Hanswer. split.
  - intros p rest Hp Hm. rewrite prove_outcome, Hanswer.
    rewrite (prove_catch_strips p rest); [reflexivity | | exact Hm].
    simpl in Hp. intuition.
  - intros rest Hm.
    assert (Hpre : has_prefix "protocol: " (message e)) by (now exists rest).
    destruct (prefixes_exclusive (message e)) as (_ & _ & _ & Hpr).
    destruct (Hpr Hpre) as (N1 & N2 & N3). split.
    + rewrite prove_outcome, Hanswer.
      now rewrite prove_catch_rethrows.
    + intros Hfind. split.
      * rewrite find_outcome, Hfind.
        rewrite (find_catch_strips "protocol: " rest); auto.
      * intros Heq. apply (f_equal message) in Heq. simpl in Heq.
        rewrite Hm in Heq. symmetry in Heq.
        now apply prefixed_differs in Heq.
Qed.

Lemma prove_reclassifies_all_but_protocol_witness :
  prove_store_answer
    (example_store (Returned ([], 0%Z))
       (Threw (store_error "protocol: unknown version")) (Returned example_fee)
       (Returned []))
    example_contract "note" VUndefined (w_heap (world_of []))
  = Threw (store_error "protocol: unknown version")
  /\ fst (prove
            (example_store (Returned ([], 0%Z))
               (Threw (store_error "protocol: unknown version"))
               (Returned example_fee) (Returned []))
            example_contract "note" VUndefined (world_of []))
     = Threw (store_error "protocol: unknown version").
Proof.
  split; [reflexivity |].
  apply (proj2 (prove_reclassifies_all_but_protocol
                  (example_store (Returned ([], 0%Z))
                     (Threw (store_error "protocol: unknown version"))
                     (Returned example_fee) (Returned []))
                  example_contract "note" VUndefined (world_of [])
                  (store_error "protocol: unknown version") eq_refl)
           "unknown version"%string).
  reflexivity.
Defined.

(** ** Fees of read operations (C6) *)

(** C6.  A [find] that returns, and a [prove] that returns, had an answer
    from the store, and the result carries exactly one fee operation:
    storage fee zero, processing fee the cost the store reported, no
    refunds; its value is what the store answered. *)
Theorem read_results_carry_one_zero_storage_operation
    (storage : GroveDBStore) (dataContract : DataContract)
    (documentType : string) (options : value) (w : world) :
  (forall r,
      fst (find storage dataContract documentType options w) = Returned r ->
      exists documents processingCost,
        find_store_answer storage dataContract documentType options (w_heap w)
        = Returned (documents, processingCost)
        /\ sr_value r = documents
        /\ sr_operations r =
           [ {| op_storageCost := 0;
                op_processingCost := processingCost;
                op_feeRefunds := [] |} ])
  /\ (forall r,
        fst (prove storage dataContract documentType options w) = Returned r ->
        exists proof processingCost,
          prove_store_answer storage dataContract documentType options (w_heap w)
          = Returned (proof, processingCost)
          /\ sr_value r = proof
          /\ sr_operations r =
             [ {| op_storageCost := 0;
                  op_processingCost := processingCost;
                  op_feeRefunds := [] |} ]).
Proof.
  split; intros r Hr.
  - rewrite find_outcome in Hr.
    destruct (find_store_answer _ _ _ _ _) as [[documents cost]|e].
    + exists documents, cost. inversion Hr; subst. now simpl.
    + exfalso. unfold find_catch, throw in Hr.
      repeat match type of Hr with
             | context [if ?b then _ else _] => destruct b
             end; discriminate.
  - rewrite prove_outcome in Hr.
    destruct (prove_store_answer _ _ _ _ _) as [[proof cost]|e].
    + exists proof, cost. inversion Hr; subst. now simpl.
    + exfalso. unfold prove_catch, throw in Hr.
      repeat match type of Hr with
             | context [if ?b then _ else _] => destruct b
             end; discriminate.
Qed.

Lemma read_results_carry_one_zero_storage_operation_witness :
  fst (find
         (example_store (Returned ([example_document], 7%Z))
            (Returned ([x05], 9%Z)) (Returned example_fee) (Returned []))
         example_contract "note" VUndefined (world_of []))
  = Returned (Build_StorageResult [example_document] [zero_storage_operation 7])
  /\ exists documents processingCost,
      find_store_answer
        (example_store (Returned ([example_document], 7%Z))
           (Returned ([x05], 9%Z)) (Returned example_fee) (Returned []))
        example_contract "note" VUndefined (w_heap (world_of []))
      = Returned (documents, processingCost)
      /\ sr_value (Build_StorageResult [example_document]
                     [zero_storage_operation 7]) = documents
      /\ sr_operations (Build_StorageResult [example_document]
                          [zero_storage_operation 7]) =
         [ {| op_storageCost := 0;
              op_processingCost := processingCost;
              op_feeRefunds := [] |} ].
Proof.
  split; [reflexivity |].
  apply (proj1 (read_results_carry_one_zero_storage_operation
                  (example_store (Returned ([example_document], 7%Z))
                     (Returned ([x05], 9%Z)) (Returned example_fee) (Returned []))
                  example_contract "note" VUndefined (world_of []))).
  reflexivity.
Defined.

(** ** Replies received by [DriveClient.request] (C7) *)

Section ReplyHandling.

Import DriveClient.

Variable cbor_encode : data -> Buffer.
Variable base64_decode : string -> Buffer.
Variable createGrpcErrorFromDriveResponse : Z -> option string -> JS.error.
Variable client_request : string -> request_options -> outcome rpc_reply.

(** What is sent: the method [abci_query] with the path, the hexadecimal
    text of the encoded data, [{}] when no data is passed, and the
    [prove] flag, [false] when none is passed. *)
Lemma request_sends (path : string) (data0 : option data) (prove0 : option bool) :
  ro_path (build_request_options cbor_encode path data0 prove0) = path
  /\ ro_data (build_request_options cbor_encode path data0 prove0)
     = toHex (cbor_encode (match data0 with Some d => d | None => DObject [] end))
  /\ ro_prove (build_request_options cbor_encode path data0 prove0)
     = match prove0 with Some b => b | None => false end.
Proof. repeat split. Qed.

Lemma request_received (path : string) (data0 : option data)
    (prove0 : option bool) (reply : rpc_reply) :
  client_request "abci_query" (build_request_options cbor_encode path data0 prove0)
  = Returned reply ->
  request cbor_encode base64_decode createGrpcErrorFromDriveResponse client_request
    path data0 prove0
  = handle_reply base64_decode createGrpcErrorFromDriveResponse reply.
Proof. intros H. unfold request. now rewrite H. Qed.

(** C7, as the code has it.  For every reply received: when the envelope
    carries an error, [request] throws an [RPCError] with the data of the
    error, with its code unless that is absent or zero, in which case the
    code is -32602, and with its message unless that is absent or empty,
    in which case the message is [Internal error]; when there is no error
    and the code of the response is absent or zero, the decoding of the
    response value is returned; when the code is not zero, the error built
    from the code and the info string is thrown. *)
Theorem request_interprets_reply (path : string) (data0 : option data)
    (prove0 : option bool) (reply : rpc_reply) :
  client_request "abci_query" (build_request_options cbor_encode path data0 prove0)
  = Returned reply ->
  (forall err, error reply = Some err ->
     exists c m,
       request cbor_encode base64_decode createGrpcErrorFromDriveResponse
         client_request path data0 prove0
       = Threw (RPCError c m (err_data err))
       /\ (forall z, err_code err = Some z -> z <> 0%Z -> c = z)
       /\ (err_code err = None \/ err_code err = Some 0%Z -> c = (-32602)%Z)
       /\ (forall s, err_message err = Some s -> s <> ""%string -> m = s)
       /\ (err_message err = None \/ err_message err = Some ""%string ->
           m = "Internal error"%string))
  /\ (forall response v,
        error reply = None -> result reply = Some response ->
        code response = None \/ code response = Some 0%Z ->
        value response = Some v ->
        request cbor_encode base64_decode createGrpcErrorFromDriveResponse
          client_request path data0 prove0
        = Returned (base64_decode v))
  /\ (forall response c,
        error reply = None -> result reply = Some response ->
        code response = Some c -> c <> 0%Z ->
        request cbor_encode base64_decode createGrpcErrorFromDriveResponse
          client_request path data0 prove0
        = Threw (createGrpcErrorFromDriveResponse c (info response))).
Proof.
  intros Hreply. rewrite (request_received _ _ _ _ Hreply).
  unfold handle_reply. repeat split.
  - intros err Herr. rewrite Herr.
    exists (code_or_default (err_code err)), (message_or_default (err_message err)).
    split; [reflexivity |]. unfold code_or_default, message_or_default.
    repeat split.
    + intros z Hz Hnz. rewrite Hz.
      destruct (Z.eqb_spec z 0); [contradiction | reflexivity].
    + intros [Hc | Hc]; now rewrite Hc.
    + intros s Hs Hne. rewrite Hs.
      destruct (String.eqb_spec s ""); [contradiction | reflexivity].
    + intros [Hm | Hm]; now rewrite Hm.
  - intros response v Herr Hres Hcode Hval. rewrite Herr, Hres.
    destruct Hcode as [Hc | Hc]; now rewrite Hc, Hval.
  - intros response c Herr Hres Hcode Hnz. rewrite Herr, Hres, Hcode.
    destruct c; [contradiction | reflexivity | reflexivity].
Qed.

End ReplyHandling.

Lemma request_interprets_reply_witness :
  client_receiving (reply_with_response (Some 0%Z) (Some "AQI=") None)
    "abci_query"
    (DriveClient.build_request_options stub_cbor_encode "/identities" None None)
  = Returned (reply_with_response (Some 0%Z) (Some "AQI=") None)
  /\ DriveClient.request stub_cbor_encode stub_base64_decode stub_grpc_error
       (client_receiving (reply_with_response (Some 0%Z) (Some "AQI=") None))
       "/identities" None None
     = Returned (stub_base64_decode "AQI=").
Proof.
  split; [reflexivity |].
  apply (proj1 (proj2 (request_interprets_reply stub_cbor_encode stub_base64_decode
                  stub_grpc_error
                  (client_receiving (reply_with_response (Some 0%Z) (Some "AQI=") None))
                  "/identities" None None
                  (reply_with_response (Some 0%Z) (Some "AQI=") None) eq_refl))
           {| DriveClient.code := Some 0%Z;
              DriveClient.value := Some "AQI="%string;
              DriveClient.info := None |}
           "AQI="%string);
    [reflexivity | reflexivity | right; reflexivity | reflexivity].
Defined.

(** Against C7 as stated, which has the [RPCError] carry the code of the
    error whenever there is one.  An envelope whose error has code 0 gives
    an [RPCError] with code -32602, not 0. *)
Lemma request_replaces_zero_code :
  DriveClient.request stub_cbor_encode stub_base64_decode stub_grpc_error
    (client_receiving (reply_with_error (Some 0%Z) (Some "boom")))
    "/identities" None None
  = Threw (DriveClient.RPCError (-32602) "boom" DUndefined)
  /\ DriveClient.request stub_cbor_encode stub_base64_decode stub_grpc_error
       (client_receiving (reply_with_error (Some 0%Z) (Some "boom")))
       "/identities" None None
     <> Threw (DriveClient.RPCError 0 "boom" DUndefined).
Proof. split; [reflexivity | discriminate]. Qed.

(** ** Logging around mutations (C5) *)

Section Mutations.

Variable storage : GroveDBStore.
Variable logger : bool.
Variable sha256 : Buffer -> Buffer.
Variable identifier_toString : Identifier -> string.

Ltac run_mutation :=
  unfold create, update, delete, log_document, log_delete, try_finally, bind,
    on_heap, call_store, logger_info, read_property, get_heap, ret, throw,
    logged_exit, mutation_result, document_entry, delete_entry;
  simpl.

(** C5, as the code has it.  For [create], [update] and [delete] called
    with options other than [null]: without a logger nothing is logged and
    the caller gets the operation's own result or exception; with a
    logger, when [getRootHash] answers, exactly one entry is logged, on
    success and on failure of the operation alike, and the caller gets the
    operation's own result or exception; when [getRootHash] throws,
    nothing is logged and the caller gets the exception of
    [getRootHash]. *)
Theorem mutations_log_on_every_exit
    (document : Document) (dataContract : DataContract)
    (documentType : string) (id : Identifier) (blockInfo options0 : value)
    (w : world) :
  options0 <> VNull ->
  let (h, options) := default_empty_object (w_heap w) options0 in
  let useTransaction := toBoolean (getProperty h options "useTransaction") in
  let dryRun := toBoolean (getProperty h options "dryRun") in
  logged_exit logger
    (mutation_result (createDocument storage document blockInfo useTransaction dryRun))
    (getRootHash storage h options)
    (document_entry sha256 "createDocument" document h options)
    w
    (create storage logger sha256 document blockInfo options0 w)
  /\ logged_exit logger
       (mutation_result (updateDocument storage document blockInfo useTransaction dryRun))
       (getRootHash storage h options)
       (document_entry sha256 "updateDocument" document h options)
       w
       (update storage logger sha256 document blockInfo options0 w)
  /\ logged_exit logger
       (mutation_result
          (deleteDocument storage (getId dataContract) documentType id blockInfo
             useTransaction dryRun))
       (getRootHash storage h options)
       (delete_entry identifier_toString dataContract documentType id h options)
       w
       (delete storage logger identifier_toString dataContract documentType id
          blockInfo options0 w).
Proof.
  intros Hnull.
  destruct options0; try contradiction; simpl;
    (split; [| split]); run_mutation;
    destruct logger; simpl;
    repeat match goal with
      | |- context [createDocument ?s ?a ?b ?c ?d] =>
          destruct (createDocument s a b c d); simpl
      | |- context [updateDocument ?s ?a ?b ?c ?d] =>
          destruct (updateDocument s a b c d); simpl
      | |- context [deleteDocument ?s ?a ?b ?c ?d ?e ?f] =>
          destruct (deleteDocument s a b c d e f); simpl
      | |- context [getRootHash ?s ?a ?b] =>
          destruct (getRootHash s a b); simpl
      end;
    split; reflexivity.
Qed.

End Mutations.

Lemma mutations_log_on_every_exit_witness :
  VUndefined <> VNull
  /\ fst (create
            (example_store (Returned ([], 0%Z)) (Returned ([], 0%Z))
               (Threw (store_error "already exists")) (Returned [xab]))
            true stub_sha256 example_document VNull VUndefined (world_of []))
     = Threw (store_error "already exists")
  /\ w_log (snd (create
            (example_store (Returned ([], 0%Z)) (Returned ([], 0%Z))
               (Threw (store_error "already exists")) (Returned [xab]))
            true stub_sha256 example_document VNull VUndefined (world_of [])))
     = [LogDocument "createDocument" "01ff" "00" false false "ab"].
Proof.
  split; [discriminate |].
  exact (proj1 (mutations_log_on_every_exit
                  (example_store (Returned ([], 0%Z)) (Returned ([], 0%Z))
                     (Threw (store_error "already exists")) (Returned [xab]))
                  true stub_sha256 stub_identifier_toString
                  example_document example_contract "note" [x07] VNull VUndefined
                  (world_of [])
                  ltac:(discriminate))).
Defined.

(** Against C5 as stated, which has a failure of [getRootHash] never mask
    the outcome of the operation.  With a logger set, a [create] whose
    store call succeeds while [getRootHash] throws ends with the exception
    of [getRootHash]: the caller does not get the [StorageResult], and
    nothing is logged.  When the store call throws as well, the caller
    gets the exception of [getRootHash], not that of the store call. *)
Lemma create_root_hash_failure_replaces_result :
  mutation_result
    (createDocument
       (example_store (Returned ([], 0%Z)) (Returned ([], 0%Z))
          (Returned example_fee) (Threw (store_error "no root hash")))
       example_document VNull false false)
  = Returned (Build_StorageResult tt
                [ {| op_storageCost := 10; op_processingCost := 3;
                     op_feeRefunds := [] |} ])
  /\ fst (create
            (example_store (Returned ([], 0%Z)) (Returned ([], 0%Z))
               (Returned example_fee) (Threw (store_error "no root hash")))
            true stub_sha256 example_document VNull VUndefined (world_of []))
     = Threw (store_error "no root hash")
  /\ w_log (snd (create
            (example_store (Returned ([], 0%Z)) (Returned ([], 0%Z))
               (Returned example_fee) (Threw (store_error "no root hash")))
            true stub_sha256 example_document VNull VUndefined (world_of [])))
     = []
  /\ fst (create
            (example_store (Returned ([], 0%Z)) (Returned ([], 0%Z))
               (Threw (store_error "already exists"))
               (Threw (store_error "no root hash")))
            true stub_sha256 example_document VNull VUndefined (world_of []))
     = Threw (store_error "no root hash").
Proof. repeat split. Qed.

(** ** Proofs of many documents (C9) *)

Lemma example_proof_store_fails_as_a_whole (knows : PathQuery -> bool) :
  fails_as_a_whole (example_proof_store knows).
Proof.
  intros queries q e Hin Hq. simpl in *.
  rewrite andb_true_r in Hq.
  destruct (knows q) eqn:Hk; [discriminate |].
  assert (Hall : forallb knows queries = false).
  { destruct (forallb knows queries) eqn:Hf; [| reflexivity].
    rewrite forallb_forall in Hf. rewrite (Hf q Hin) in Hk. discriminate. }
  rewrite Hall. eauto.
Defined.

(** C9.  Given [N] items, the repository makes exactly one call to the
    store, [proveQueryMany], with [N] path queries in the order of the
    items; the query of an item has the path [TREE_PATH] followed by the
    contract identifier, the byte 1, the bytes of the document type and the
    byte 0, and asks for the single item of type [key] with the document
    identifier as key.  The call ends as the store's call ends, nothing
    being added to it; so, with a store whose multi-path request fails as
    a whole, an item whose path fails makes the whole call throw. *)
Theorem prove_many_is_one_batched_request
    (storage : GroveDBStore) (TREE_PATH : list Buffer)
    (documents : list DocumentRef) (w : world) :
  let r := proveManyDocumentsFromDifferentContracts storage TREE_PATH documents w in
  let queries :=
    List.map
      (fun d =>
         {| pq_path :=
              TREE_PATH
              ++ [dataContractId d; [x01]; Buffer_from_string (type d); [x00]];
            pq_items := [ {| item_type := "key"; item_key := documentId d |} ] |})
      documents in
  w_calls (snd r) = w_calls w ++ [CallProveQueryMany queries]
  /\ length queries = length documents
  /\ fst r = proveQueryMany storage queries
  /\ w_heap (snd r) = w_heap w
  /\ w_log (snd r) = w_log w
  /\ (fails_as_a_whole storage ->
      forall d e,
        In d documents ->
        proveQueryMany storage
          [ {| pq_path :=
                 TREE_PATH
                 ++ [dataContractId d; [x01]; Buffer_from_string (type d); [x00]];
               pq_items := [ {| item_type := "key"; item_key := documentId d |} ] |} ]
        = Threw e ->
        exists e', fst r = Threw e').
Proof.
  simpl.
  unfold proveManyDocumentsFromDifferentContracts, call_store, document_path_query.
  simpl. repeat split.
  - apply length_map.
  - intros Hwhole d e Hin Hfail.
    eapply Hwhole; [| exact Hfail].
    apply in_map_iff. exists d. split; [reflexivity | exact Hin].
Qed.

Lemma prove_many_is_one_batched_request_witness :
  fails_as_a_whole (example_proof_store knows_contract_2a)
  /\ w_calls (snd (proveManyDocumentsFromDifferentContracts
                     (example_proof_store knows_contract_2a) example_tree_path
                     [document_ref_a; document_ref_b] (world_of [])))
     = [CallProveQueryMany
          [ {| pq_path := [[x01]; [x2a]; [x01]; [x6e; x6f; x74; x65]; [x00]];
               pq_items := [ {| item_type := "key"; item_key := [x07] |} ] |};
            {| pq_path := [[x01]; [x2b]; [x01]; [x6e; x6f; x74; x65]; [x00]];
               pq_items := [ {| item_type := "key"; item_key := [x08] |} ] |} ]]
  /\ exists e',
      fst (proveManyDocumentsFromDifferentContracts
             (example_proof_store knows_contract_2a) example_tree_path
             [document_ref_a; document_ref_b] (world_of []))
      = Threw e'.
Proof.
  split; [apply example_proof_store_fails_as_a_whole |].
  pose proof (prove_many_is_one_batched_request
                (example_proof_store knows_contract_2a) example_tree_path
                [document_ref_a; document_ref_b] (world_of [])) as H.
  simpl in H. destruct H as (Hcalls & _ & _ & _ & _ & Hfail).
  split; [exact Hcalls |].
  apply (Hfail (example_proof_store_fails_as_a_whole knows_contract_2a)
           document_ref_b (store_error "path not found")).
  - right; left; reflexivity.
  - reflexivity.
Defined.

(** ** The heap: what [find] and [prove] leave untouched (C10) *)

Lemma list_map_lookup {A B} (f : A -> B) (l : list A) (i : nat) :
  (List.map f l) !! i = f <$> (l !! i).
Proof.
  revert i. induction l as [|x l IH]; intros [|i]; simpl; try reflexivity.
  apply IH.
Qed.

Lemma extends_refl (h : heap) : extends h h.
Proof. exists []. now rewrite app_nil_r. Qed.

Lemma extends_trans (h1 h2 h3 : heap) :
  extends h1 h2 -> extends h2 h3 -> extends h1 h3.
Proof. intros [n1 ->] [n2 ->]. exists (n1 ++ n2). now rewrite app_assoc. Qed.

Lemma extends_lookup (h h' : heap) (l : loc) (c : cell) :
  extends h h' -> h !! l = Some c -> h' !! l = Some c.
Proof. intros [new ->] H. now apply lookup_app_l_Some. Qed.

(** Deleting a property of an object allocated after [h] leaves [h]. *)
Lemma deleteProperty_beyond (h new : heap) (i : nat) (k : string) :
  exists new', deleteProperty (h ++ new) (VRef (length h + i)) k = h ++ new'.
Proof.
  unfold deleteProperty.
  destruct ((h ++ new) !! (length h + i)) as [[ps|vs|bs]|];
    try (now exists new).
  exists (<[i := CObject (remove_prop k ps)]> new). apply insert_app_r.
Qed.

Lemma remove_undefined_fold_beyond (h : heap) (i : nat) (keys : list string)
    (new : heap) :
  exists new',
    List.fold_left
      (fun h' queryOption =>
         if value_eqb_undefined (getProperty h' (VRef (length h + i)) queryOption)
         then deleteProperty h' (VRef (length h + i)) queryOption
         else h')
      keys (h ++ new)
    = h ++ new'.
Proof.
  revert new. induction keys as [|k keys IH]; intros new; cbn [List.fold_left].
  - now exists new.
  - destruct (value_eqb_undefined _).
    + destruct (deleteProperty_beyond h new i k) as [new1 ->]. apply IH.
    + apply IH.
Qed.

Lemma remove_undefined_options_beyond (h new : heap) (i : nat) :
  exists new',
    remove_undefined_options (h ++ new) (VRef (length h + i)) = h ++ new'.
Proof. unfold remove_undefined_options. apply remove_undefined_fold_beyond. Qed.

Lemma find_query_extends (h : heap) (options : value) :
  extends h (fst (find_query h options)).
Proof.
  unfold find_query, Lodash.cloneDeep.
  destruct options as [| |b|z|s|l]; try (cbn; apply extends_refl).
  destruct (isPlainObjectLike _ _); cbn [fst]; [| now eexists].
  destruct (deleteProperty_beyond h (List.map (Lodash.relocate_cell (length h)) h)
              l "useTransaction") as [n1 ->].
  destruct (deleteProperty_beyond h n1 l "dryRun") as [n2 ->].
  destruct (deleteProperty_beyond h n2 l "blockInfo") as [n3 ->].
  destruct (remove_undefined_options_beyond h n3 l) as [n4 ->].
  now exists n4.
Qed.

Lemma prove_query_extends (h : heap) (options : value) :
  extends h (fst (prove_query h options)).
Proof.
  unfold prove_query, Lodash.cloneDeep.
  destruct options as [| |b|z|s|l]; try (cbn; apply extends_refl).
  destruct (isPlainObjectLike _ _); cbn [fst]; [| now eexists].
  destruct (deleteProperty_beyond h (List.map (Lodash.relocate_cell (length h)) h)
              l "useTransaction") as [n1 ->].
  destruct (deleteProperty_beyond h n1 l "dryRun") as [n2 ->].
  destruct (remove_undefined_options_beyond h n2 l) as [n3 ->].
  now exists n3.
Qed.

Lemma default_empty_object_extends (h : heap) (v : value) :
  extends h (fst (default_empty_object h v)).
Proof.
  destruct v; simpl; try apply extends_refl. now eexists.
Qed.

Section HeapAfterQuery.

Variable storage : GroveDBStore.
Variable dataContract : DataContract.
Variable documentType : string.

(** The world [find] leaves: the heap as the preparation of the query
    left it, one more call in the trace, the log as it was. *)
Lemma find_world (options0 : value) (w : world) :
  let (h0, options) := default_empty_object (w_heap w) options0 in
  let '(h1, (query, useTransaction)) := find_query h0 options in
  snd (find storage dataContract documentType options0 w)
  = mkWorld h1
      (w_calls w
       ++ [CallQueryDocuments dataContract documentType
             (find_epochIndex h1 options) h1 query useTransaction])
      (w_log w).
Proof.
  unfold find, bind, on_heap, try_catch, call_store, get_heap, ret; simpl.
  destruct (default_empty_object (w_heap w) options0) as [h0 options]; simpl.
  destruct (find_query h0 options) as [h1 [query useTransaction]]; simpl.
  destruct (queryDocuments _ _ _ _ _ _ _) as [[documents cost]|e]; simpl.
  - reflexivity.
  - unfold find_catch, throw.
    repeat match goal with |- context [if ?b then _ else _] => destruct b end;
      reflexivity.
Qed.

Lemma prove_world (options0 : value) (w : world) :
  let (h0, options) := default_empty_object (w_heap w) options0 in
  let '(h1, (query, useTransaction)) := prove_query h0 options in
  snd (prove storage dataContract documentType options0 w)
  = mkWorld h1
      (w_calls w
       ++ [CallProveDocumentsQuery dataContract documentType h1 query
             useTransaction])
      (w_log w).
Proof.
  unfold prove, bind, on_heap, try_catch, call_store, get_heap, ret; simpl.
  destruct (default_empty_object (w_heap w) options0) as [h0 options]; simpl.
  destruct (prove_query h0 options) as [h1 [query useTransaction]]; simpl.
  destruct (proveDocumentsQuery _ _ _ _ _ _) as [[proof cost]|e]; simpl.
  - reflexivity.
  - unfold prove_catch, throw.
    repeat match goal with |- context [if ?b then _ else _] => destruct b end;
      reflexivity.
Qed.

Lemma find_extends_heap (options0 : value) (w : world) :
  extends (w_heap w) (w_heap (snd (find storage dataContract documentType options0 w))).
Proof.
  pose proof (find_world options0 w) as Hw.
  pose proof (default_empty_object_extends (w_heap w) options0) as H0.
  destruct (default_empty_object (w_heap w) options0) as [h0 options].
  pose proof (find_query_extends h0 options) as H1.
  destruct (find_query h0 options) as [h1 [query useTransaction]].
  rewrite Hw. simpl in *. eapply extends_trans; eassumption.
Qed.

Lemma prove_extends_heap (options0 : value) (w : world) :
  extends (w_heap w) (w_heap (snd (prove storage dataContract documentType options0 w))).
Proof.
  pose proof (prove_world options0 w) as Hw.
  pose proof (default_empty_object_extends (w_heap w) options0) as H0.
  destruct (default_empty_object (w_heap w) options0) as [h0 options].
  pose proof (prove_query_extends h0 options) as H1.
  destruct (prove_query h0 options) as [h1 [query useTransaction]].
  rewrite Hw. simpl in *. eapply extends_trans; eassumption.
Qed.

End HeapAfterQuery.

(** C10.  Every object of the heap before a call to [find] or [prove],
    the options object and whatever it refers to included, is the same
    after the call: what is removed is removed from objects allocated by
    the call. *)
Theorem find_and_prove_leave_options_unchanged
    (storage : GroveDBStore) (dataContract : DataContract)
    (documentType : string) (options : value) (w : world)
    (l : loc) (c : cell) :
  w_heap w !! l = Some c ->
  w_heap (snd (find storage dataContract documentType options w)) !! l = Some c
  /\ w_heap (snd (prove storage dataContract documentType options w)) !! l = Some c.
Proof.
  intros Hl. split.
  - eapply extends_lookup; [apply find_extends_heap | exact Hl].
  - eapply extends_lookup; [apply prove_extends_heap | exact Hl].
Qed.

Lemma find_and_prove_leave_options_unchanged_witness :
  [CObject [("dryRun", VBool true); ("limit", VUndefined); ("where", VRef 1)];
   CArray [VStr "a"]] !! 0
  = Some (CObject [("dryRun", VBool true); ("limit", VUndefined); ("where", VRef 1)])
  /\ w_heap (snd (find
       (example_store (Returned ([], 0%Z)) (Returned ([], 0%Z))
          (Returned example_fee) (Returned []))
       example_contract "note" (VRef 0)
       (world_of
          [CObject [("dryRun", VBool true); ("limit", VUndefined); ("where", VRef 1)];
           CArray [VStr "a"]]))) !! 0
     = Some (CObject [("dryRun", VBool true); ("limit", VUndefined); ("where", VRef 1)])
  /\ w_heap (snd (prove
       (example_store (Returned ([], 0%Z)) (Returned ([], 0%Z))
          (Returned example_fee) (Returned []))
       example_contract "note" (VRef 0)
       (world_of
          [CObject [("dryRun", VBool true); ("limit", VUndefined); ("where", VRef 1)];
           CArray [VStr "a"]]))) !! 0
     = Some (CObject [("dryRun", VBool true); ("limit", VUndefined); ("where", VRef 1)]).
Proof.
  split; [reflexivity |].
  apply (find_and_prove_leave_options_unchanged
           (example_store (Returned ([], 0%Z)) (Returned ([], 0%Z))
              (Returned example_fee) (Returned []))
           example_contract "note" (VRef 0)
           (world_of
              [CObject [("dryRun", VBool true); ("limit", VUndefined); ("where", VRef 1)];
               CArray [VStr "a"]])
           0).
  reflexivity.
Defined.

(** ** Property lists: removals are filters *)

Lemma filter_all {A} (f : A -> bool) (l : list A) :
  (forall x, In x l -> f x = true) -> List.filter f l = l.
Proof.
  induction l as [|x l IH]; intros H; simpl; [reflexivity |].
  rewrite (H x (or_introl eq_refl)). f_equal. apply IH.
  intros y Hy. apply H. now right.
Qed.

Lemma filter_filter {A} (f g : A -> bool) (l : list A) :
  List.filter f (List.filter g l) = List.filter (fun x => g x && f x) l.
Proof.
  induction l as [|x l IH]; simpl; [reflexivity |].
  destruct (g x); simpl; [destruct (f x) |]; now rewrite IH.
Qed.

Lemma map_filter_commute {A B} (f : A -> B) (p : A -> bool) (q : B -> bool)
    (l : list A) :
  (forall x, In x l -> p x = q (f x)) ->
  List.map f (List.filter p l) = List.filter q (List.map f l).
Proof.
  induction l as [|x l IH]; intros H; simpl; [reflexivity |].
  rewrite <- (H x (or_introl eq_refl)).
  destruct (p x); simpl; rewrite IH; auto; intros y Hy; apply H; now right.
Qed.

(** Reading a key in a list filtered on keys. *)
Lemma lookup_prop_filter (q : string -> bool) (k : string)
    (ps : list (string * value)) :
  q k = true ->
  lookup_prop k (List.filter (fun kv => q (fst kv)) ps) = lookup_prop k ps.
Proof.
  intros Hq. induction ps as [|[k' v] ps IH]; simpl; [reflexivity |].
  destruct (q k') eqn:Hk'; simpl.
  - now rewrite IH.
  - destruct (String.eqb_spec k k') as [->|]; [congruence | exact IH].
Qed.

Lemma lookup_prop_in (k : string) (v : value) (ps : list (string * value)) :
  In (k, v) ps -> exists x, lookup_prop k ps = Some x.
Proof.
  induction ps as [|[k' v'] ps IH]; intros Hin; [contradiction |].
  simpl. destruct (String.eqb_spec k k'); [eauto |].
  destruct Hin as [Heq | Hin]; [congruence | auto].
Qed.

Lemma is_control_in (controls : list string) (k : string) :
  is_control controls k = true <-> In k controls.
Proof.
  unfold is_control. rewrite existsb_exists. split.
  - intros [x [Hin Heq]]. apply String.eqb_eq in Heq. now subst.
  - intros Hin. exists k. split; [exact Hin | apply String.eqb_refl].
Qed.

(** The loop over the keys, on the property list: a key that reads as
    [undefined] loses its entries, the others stay. *)
Lemma remove_if_undefined_fold (keys : list string) (ps : list (string * value)) :
  List.fold_left remove_if_undefined keys ps
  = List.filter
      (fun kv => negb (is_control keys (fst kv)
                       && value_eqb_undefined (prop_value (fst kv) ps)))
      ps.
Proof.
  revert ps. induction keys as [|k keys IH]; intros ps; cbn [List.fold_left].
  - symmetry. apply filter_all. intros; reflexivity.
  - rewrite IH. unfold remove_if_undefined.
    destruct (value_eqb_undefined (prop_value k ps)) eqn:Hk.
    + unfold remove_prop. rewrite filter_filter.
      apply filter_ext. intros [k' v]; simpl.
      destruct (String.eqb_spec k k') as [<-|Hne].
      * simpl. rewrite String.eqb_refl. simpl. now rewrite Hk.
      * simpl. rewrite (proj2 (String.eqb_neq k' k)) by congruence. simpl.
        unfold prop_value.
        rewrite (lookup_prop_filter (fun x => negb (String.eqb k x))); [reflexivity |].
        now rewrite (proj2 (String.eqb_neq k k')).
    + apply filter_ext. intros [k' v]; simpl.
      destruct (String.eqb_spec k' k) as [->|Hne]; simpl; [| reflexivity].
      rewrite Hk. now rewrite andb_false_r.
Qed.

Lemma remove_if_undefined_all (ps : list (string * value)) :
  List.fold_left remove_if_undefined (prop_keys ps) ps = strip_props [] ps.
Proof.
  rewrite remove_if_undefined_fold. unfold strip_props, kept.
  apply filter_ext_in. intros [k v] Hin; simpl.
  assert (Hk : is_control (prop_keys ps) k = true).
  { apply is_control_in. unfold prop_keys. apply in_map_iff.
    now exists (k, v). }
  now rewrite Hk.
Qed.

(** Removing control keys one after the other, then the [undefined]
    options. *)
Lemma strip_props_remove (c : string) (controls : list string)
    (ps : list (string * value)) :
  strip_props controls (remove_prop c ps) = strip_props (c :: controls) ps.
Proof.
  unfold strip_props, remove_prop. rewrite filter_filter.
  apply filter_ext. intros [k v]; unfold kept; simpl.
  rewrite (String.eqb_sym k c).
  destruct (String.eqb_spec c k) as [->|Hne]; simpl; [reflexivity |].
  unfold prop_value.
  rewrite (lookup_prop_filter (fun x => negb (String.eqb c x))); [reflexivity |].
  now rewrite (proj2 (String.eqb_neq c k)).
Qed.

(** ** The query object on the heap *)

Lemma getProperty_at (h : heap) (q : loc) (ps : list (string * value))
    (k : string) :
  h !! q = Some (CObject ps) -> getProperty h (VRef q) k = prop_value k ps.
Proof. intros H. unfold getProperty, prop_value. now rewrite H. Qed.

Lemma deleteProperty_at (h : heap) (q : loc) (ps : list (string * value))
    (k : string) :
  h !! q = Some (CObject ps) ->
  deleteProperty h (VRef q) k = <[q := CObject (remove_prop k ps)]> h.
Proof. intros H. unfold deleteProperty. now rewrite H. Qed.

Lemma insert_at (h : heap) (q : loc) (c c' : cell) :
  h !! q = Some c -> (<[q := c']> h) !! q = Some c'.
Proof.
  intros H. apply list_lookup_insert_eq. apply lookup_lt_is_Some. eauto.
Qed.

Lemma remove_undefined_fold_at (keys : list string) (h : heap) (q : loc)
    (ps : list (string * value)) :
  h !! q = Some (CObject ps) ->
  List.fold_left
    (fun h' queryOption =>
       if value_eqb_undefined (getProperty h' (VRef q) queryOption)
       then deleteProperty h' (VRef q) queryOption
       else h')
    keys h
  = <[q := CObject (List.fold_left remove_if_undefined keys ps)]> h.
Proof.
  revert h ps. induction keys as [|k keys IH]; intros h ps Hq;
    cbn [List.fold_left].
  - symmetry. now apply list_insert_id.
  - rewrite (getProperty_at h q ps k Hq). unfold remove_if_undefined at 2.
    destruct (value_eqb_undefined (prop_value k ps)).
    + rewrite (deleteProperty_at h q ps k Hq).
      rewrite (IH _ (remove_prop k ps)) by (eapply insert_at; eassumption).
      apply list_insert_insert_eq.
    + now apply IH.
Qed.

Lemma remove_undefined_options_at (h : heap) (q : loc)
    (ps : list (string * value)) :
  h !! q = Some (CObject ps) ->
  remove_undefined_options h (VRef q) = <[q := CObject (strip_props [] ps)]> h.
Proof.
  intros Hq. unfold remove_undefined_options, objectKeys. rewrite Hq.
  rewrite (remove_undefined_fold_at _ h q ps Hq).
  now rewrite remove_if_undefined_all.
Qed.

(** The clone of an object: where it is and what it holds. *)
Lemma cloneDeep_object (h : heap) (l : loc) (c : cell) :
  h !! l = Some c ->
  Lodash.cloneDeep h (VRef l)
  = (h ++ List.map (Lodash.relocate_cell (length h)) h, VRef (length h + l))
  /\ (h ++ List.map (Lodash.relocate_cell (length h)) h) !! (length h + l)
     = Some (Lodash.relocate_cell (length h) c).
Proof.
  intros Hl. split; [reflexivity |].
  rewrite lookup_app_r by lia.
  replace (length h + l - length h) with l by lia.
  now rewrite list_map_lookup, Hl.
Qed.

(** [find] on a plain object: the query is the clone, stripped of
    [useTransaction], [dryRun], [blockInfo] and of the [undefined]
    options. *)
Lemma find_query_object (h : heap) (l : loc) (ps : list (string * value)) :
  h !! l = Some (CObject ps) ->
  find_query h (VRef l)
  = (<[length h + l :=
         CObject (strip_props ["useTransaction"; "dryRun"; "blockInfo"]
                    (relocate_props (length h) ps))]>
       (h ++ List.map (Lodash.relocate_cell (length h)) h),
     (VRef (length h + l),
      prop_value "useTransaction" (relocate_props (length h) ps))).
Proof.
  intros Hl. destruct (cloneDeep_object h l _ Hl) as [Hc Hq].
  unfold find_query. rewrite Hc. clear Hc.
  set (h1 := h ++ List.map (Lodash.relocate_cell (length h)) h) in *.
  set (q := length h + l) in *.
  change (Lodash.relocate_cell (length h) (CObject ps))
    with (CObject (relocate_props (length h) ps)) in Hq.
  set (ps1 := relocate_props (length h) ps) in *.
  unfold isPlainObjectLike. rewrite Hq.
  rewrite (getProperty_at h1 q ps1 _ Hq).
  rewrite (deleteProperty_at h1 q ps1 _ Hq).
  pose proof (insert_at h1 q _ (CObject (remove_prop "useTransaction" ps1)) Hq) as H2.
  rewrite (deleteProperty_at _ q _ _ H2), list_insert_insert_eq.
  pose proof (insert_at h1 q _
                (CObject (remove_prop "dryRun" (remove_prop "useTransaction" ps1)))
                Hq) as H3.
  rewrite (deleteProperty_at _ q _ _ H3), list_insert_insert_eq.
  pose proof (insert_at h1 q _
                (CObject (remove_prop "blockInfo"
                            (remove_prop "dryRun"
                               (remove_prop "useTransaction" ps1))))
                Hq) as H4.
  rewrite (remove_undefined_options_at _ q _ H4), list_insert_insert_eq.
  now rewrite !strip_props_remove.
Qed.

(** [prove] on a plain object: as [find], but [blockInfo] stays. *)
Lemma prove_query_object (h : heap) (l : loc) (ps : list (string * value)) :
  h !! l = Some (CObject ps) ->
  prove_query h (VRef l)
  = (<[length h + l :=
         CObject (strip_props ["useTransaction"; "dryRun"]
                    (relocate_props (length h) ps))]>
       (h ++ List.map (Lodash.relocate_cell (length h)) h),
     (VRef (length h + l),
      prop_value "useTransaction" (relocate_props (length h) ps))).
Proof.
  intros Hl. destruct (cloneDeep_object h l _ Hl) as [Hc Hq].
  unfold prove_query. rewrite Hc. clear Hc.
  set (h1 := h ++ List.map (Lodash.relocate_cell (length h)) h) in *.
  set (q := length h + l) in *.
  change (Lodash.relocate_cell (length h) (CObject ps))
    with (CObject (relocate_props (length h) ps)) in Hq.
  set (ps1 := relocate_props (length h) ps) in *.
  unfold isPlainObjectLike. rewrite Hq.
  rewrite (getProperty_at h1 q ps1 _ Hq).
  rewrite (deleteProperty_at h1 q ps1 _ Hq).
  pose proof (insert_at h1 q _ (CObject (remove_prop "useTransaction" ps1)) Hq) as H2.
  rewrite (deleteProperty_at _ q _ _ H2), list_insert_insert_eq.
  pose proof (insert_at h1 q _
                (CObject (remove_prop "dryRun" (remove_prop "useTransaction" ps1)))
                Hq) as H3.
  rewrite (remove_undefined_options_at _ q _ H3), list_insert_insert_eq.
  now rewrite !strip_props_remove.
Qed.

(** ** Reading data off a clone *)

Lemma reify_zero (h h' : heap) (v : value) : reify 0 h v = reify 0 h' v.
Proof. now destruct v. Qed.

(** A clone reads as its original. *)
Lemma relocate_reify (h : heap) (n : nat) (v : value) :
  reify n (h ++ List.map (Lodash.relocate_cell (length h)) h)
    (Lodash.relocate (length h) v)
  = reify n h v.
Proof.
  revert v. induction n as [|n IH]; intros v; destruct v as [| |b|z|s|l];
    try reflexivity.
  cbn [Lodash.relocate reify].
  rewrite lookup_app_r by lia.
  replace (length h + l - length h) with l by lia.
  rewrite list_map_lookup.
  destruct (h !! l) as [[ps|vs|bs]|]; cbn; try reflexivity.
  - f_equal. rewrite List.map_map. apply List.map_ext. intros [k v]; cbn.
    now rewrite IH.
  - f_equal. rewrite List.map_map. apply List.map_ext. intros v. apply IH.
Qed.

Lemma forallb_map_in {A B} (f : A -> B) (p : B -> bool) (l : list A) (x : A) :
  forallb p (List.map f l) = true -> In x l -> p (f x) = true.
Proof.
  intros H Hin. rewrite forallb_forall in H. apply H. now apply in_map.
Qed.

(** Data that is complete at a depth is the same one level deeper. *)
Lemma complete_deeper (h : heap) (n : nat) (v : value) :
  complete (reify n h v) = true -> reify (S n) h v = reify n h v.
Proof.
  revert v. induction n as [|n IH]; intros v Hc; destruct v as [| |b|z|s|l];
    try reflexivity; try discriminate.
  cbn [reify] in *.
  destruct (h !! l) as [[ps|vs|bs]|]; try reflexivity; cbn [complete] in Hc;
    f_equal; apply List.map_ext_in.
  - intros [k v] Hin. cbn. f_equal. apply IH.
    apply (forallb_map_in (fun kv => (fst kv, reify n h (snd kv)))
             (fun kv => complete (snd kv)) ps (k, v) Hc Hin).
  - intros v Hin. apply IH.
    apply (forallb_map_in (reify n h) complete vs v Hc Hin).
Qed.

Lemma complete_deeper_true (h : heap) (n : nat) (v : value) :
  complete (reify n h v) = true -> complete (reify (S n) h v) = true.
Proof. intros H. now rewrite complete_deeper. Qed.

(** Writing to an object changes nothing in the data that does not
    contain it. *)
Lemma reify_insert_elsewhere (h : heap) (q : loc) (c : cell) (n : nat) (v : value) :
  complete (reify n h v) = true ->
  complete (reify n h (VRef q)) = false ->
  reify n (<[q := c]> h) v = reify n h v.
Proof.
  revert v. induction n as [|n IH]; intros v Hv Hq; [apply reify_zero |].
  assert (Hq' : complete (reify n h (VRef q)) = false).
  { destruct (complete (reify n h (VRef q))) eqn:E; [| reflexivity].
    apply complete_deeper_true in E. congruence. }
  destruct v as [| |b|z|s|l]; try reflexivity.
  destruct (Nat.eq_dec q l) as [->|Hne]; [congruence |].
  cbn [reify] in *. rewrite list_lookup_insert_ne by exact Hne.
  destruct (h !! l) as [[ps|vs|bs]|]; try reflexivity; cbn [complete] in Hv;
    f_equal; apply List.map_ext_in.
  - intros [k v] Hin. cbn. f_equal. apply IH; [| exact Hq'].
    apply (forallb_map_in (fun kv => (fst kv, reify n h (snd kv)))
             (fun kv => complete (snd kv)) ps (k, v) Hv Hin).
  - intros v Hin. apply IH; [| exact Hq'].
    apply (forallb_map_in (reify n h) complete vs v Hv Hin).
Qed.

Lemma complete_child (h : heap) (l : loc) (ps : list (string * value)) (n : nat)
    (k : string) (v : value) :
  h !! l = Some (CObject ps) ->
  complete (reify (S n) h (VRef l)) = true ->
  In (k, v) ps ->
  complete (reify n h v) = true.
Proof.
  intros Hl Hc Hin. cbn [reify] in Hc. rewrite Hl in Hc. cbn [complete] in Hc.
  apply (forallb_map_in (fun kv => (fst kv, reify n h (snd kv)))
           (fun kv => complete (snd kv)) ps (k, v) Hc Hin).
Qed.

(** The fields of the clone of a finite object read as the fields of the
    object, whatever is written to the clone itself. *)
Lemma clone_fields_reify (h : heap) (l : loc) (ps : list (string * value))
    (c : cell) (n : nat) (k : string) (v : value) :
  h !! l = Some (CObject ps) ->
  complete (reify (S n) h (VRef l)) = true ->
  In (k, v) ps ->
  reify n (<[length h + l := c]> (h ++ List.map (Lodash.relocate_cell (length h)) h))
    (Lodash.relocate (length h) v)
  = reify n h v.
Proof.
  intros Hl. revert k v. induction n as [|n IH]; intros k v Hc Hin.
  - rewrite <- (relocate_reify h 0 v). apply reify_zero.
  - pose proof (complete_child h l ps (S n) k v Hl Hc Hin) as Hv.
    destruct (complete (reify (S n) h (VRef l))) eqn:Hb.
    + pose proof (complete_child h l ps n k v Hl Hb Hin) as Hv'.
      rewrite (complete_deeper h n v Hv').
      rewrite <- (IH k v eq_refl Hin) in Hv' |- *.
      now apply complete_deeper.
    + rewrite reify_insert_elsewhere.
      * apply relocate_reify.
      * now rewrite relocate_reify.
      * change (VRef (length h + l)) with (Lodash.relocate (length h) (VRef l)).
        now rewrite relocate_reify.
Qed.

(** ** Stripped payloads *)

Lemma data_lookup_filter (q : string -> bool) (k : string)
    (ps : list (string * data)) :
  data_lookup k (List.filter (fun kv => q (fst kv)) ps)
  = if q k then data_lookup k ps else None.
Proof.
  induction ps as [|[k' d] ps IH]; simpl; [now destruct (q k) |].
  destruct (q k') eqn:Hk'; simpl.
  - destruct (String.eqb_spec k k') as [->|]; [now rewrite Hk' | exact IH].
  - rewrite IH. destruct (String.eqb_spec k k') as [->|]; [now rewrite Hk' |].
    reflexivity.
Qed.

(** [data_strip] computes a payload that is [stripped_of] the controls. *)
Lemma data_strip_stripped (controls : list string) (d : data) :
  is_object d = true -> stripped_of controls d (data_strip controls d).
Proof.
  destruct d as [| | | | |ps| | | |]; try discriminate. intros _.
  unfold stripped_of, data_strip, data_get, data_keys, is_object.
  set (q := fun k => negb (is_control controls k)
                     && negb (is_undefined_field (data_lookup k ps))).
  change (List.filter _ ps) with (List.filter (fun kv => q (fst kv)) ps).
  repeat split.
  - intros k Hk. rewrite data_lookup_filter. unfold q.
    now rewrite (proj2 (is_control_in controls k) Hk).
  - intros k. rewrite data_lookup_filter. unfold q.
    destruct (data_lookup k ps) as [[]|]; simpl;
      destruct (is_control controls k); simpl; congruence.
  - intros k Hk Hu. rewrite data_lookup_filter. unfold q.
    destruct (is_control controls k) eqn:Hc.
    + apply is_control_in in Hc. contradiction.
    + destruct (data_lookup k ps) as [[]|]; simpl; congruence.
  - intros k d. rewrite data_lookup_filter.
    destruct (q k); [tauto | discriminate].
  - apply (map_filter_commute fst (fun kv => q (fst kv)) q). reflexivity.
Qed.

Lemma lookup_relocate_props (n : nat) (k : string) (ps : list (string * value)) :
  lookup_prop k (relocate_props n ps) = Lodash.relocate n <$> lookup_prop k ps.
Proof.
  induction ps as [|[k' v] ps IH]; simpl; [reflexivity |].
  now destruct (String.eqb k k').
Qed.

Lemma data_lookup_reify (n : nat) (h : heap) (k : string)
    (ps : list (string * value)) :
  data_lookup k (List.map (fun kv => (fst kv, reify n h (snd kv))) ps)
  = reify n h <$> lookup_prop k ps.
Proof.
  induction ps as [|[k' v] ps IH]; simpl; [reflexivity |].
  now destruct (String.eqb k k').
Qed.

Lemma reify_undefined (n : nat) (h : heap) (v : value) :
  is_undefined_field (Some (reify n h v)) = value_eqb_undefined v.
Proof.
  destruct n, v as [| |b|z|s|l]; cbn; try reflexivity.
  now destruct (h !! l) as [[]|].
Qed.

Lemma relocate_undefined (n : nat) (v : value) :
  value_eqb_undefined (Lodash.relocate n v) = value_eqb_undefined v.
Proof. now destruct v. Qed.

(** The stripped clone of a finite plain object reads as the object
    stripped. *)
Lemma stripped_clone_reify (controls : list string) (h : heap) (l : loc)
    (ps : list (string * value)) (n : nat) :
  h !! l = Some (CObject ps) ->
  complete (reify n h (VRef l)) = true ->
  reify n
    (<[length h + l := CObject (strip_props controls (relocate_props (length h) ps))]>
       (h ++ List.map (Lodash.relocate_cell (length h)) h))
    (VRef (length h + l))
  = data_strip controls (reify n h (VRef l)).
Proof.
  intros Hl Hc. destruct n as [|n]; [discriminate |].
  cbn [reify]. rewrite Hl.
  rewrite list_lookup_insert_eq.
  2:{ rewrite length_app, length_map.
      assert (l < length h) by (apply lookup_lt_is_Some; eauto). lia. }
  cbn [data_strip]. f_equal.
  unfold strip_props, relocate_props.
  set (c := CObject _).
  set (h2 := <[length h + l := c]> _).
  rewrite <- (map_filter_commute
                (fun kv => (fst kv, Lodash.relocate (length h) (snd kv)))
                (fun kv => kept controls
                             (List.map
                                (fun kv => (fst kv, Lodash.relocate (length h) (snd kv)))
                                ps)
                             (fst kv, Lodash.relocate (length h) (snd kv))))
    by reflexivity.
  rewrite List.map_map. cbn [fst snd].
  rewrite (List.map_ext_in _ (fun kv => (fst kv, reify n h (snd kv)))).
  2:{ intros [k v] Hin. apply List.filter_In in Hin as [Hin _]. cbn. f_equal.
      subst h2. eapply clone_fields_reify; eassumption. }
  apply map_filter_commute. intros [k v] Hin. unfold kept. cbn [fst snd].
  f_equal. f_equal. unfold prop_value.
  fold (relocate_props (length h) ps).
  rewrite lookup_relocate_props, data_lookup_reify.
  destruct (lookup_prop_in k v ps Hin) as [x ->]. cbn [fmap option_fmap option_map].
  now rewrite reify_undefined, relocate_undefined.
Qed.

Lemma forwarded_queries_app (n : nat) (calls calls' : list drive_call) :
  forwarded_queries n (calls ++ calls')
  = forwarded_queries n calls ++ forwarded_queries n calls'.
Proof.
  induction calls as [|c calls IH]; [reflexivity |].
  destruct c; cbn; now rewrite IH.
Qed.

(** ** What is forwarded to the store (C3) *)

(** C3, as the code has it.  For options that are a plain object holding
    finite data: the payload of the query that [find] sends to the store
    is an object without [useTransaction], [dryRun] and [blockInfo] and
    without any field whose value is [undefined]; every other field of
    the options is in it, unchanged and in the same order, and it has no
    other field.  The payload that [prove] sends is the same but for
    [blockInfo], which is forwarded like any other field. *)
Theorem query_payload_is_options_stripped
    (storage : GroveDBStore) (dataContract : DataContract)
    (documentType : string) (l : loc) (ps : list (string * value))
    (w : world) (n : nat) :
  w_heap w !! l = Some (CObject ps) ->
  complete (reify n (w_heap w) (VRef l)) = true ->
  (exists payload,
      forwarded_queries n
        (w_calls (snd (find storage dataContract documentType (VRef l) w)))
      = forwarded_queries n (w_calls w) ++ [payload]
      /\ stripped_of ["useTransaction"; "dryRun"; "blockInfo"]
           (reify n (w_heap w) (VRef l)) payload)
  /\ (exists payload,
        forwarded_queries n
          (w_calls (snd (prove storage dataContract documentType (VRef l) w)))
        = forwarded_queries n (w_calls w) ++ [payload]
        /\ stripped_of ["useTransaction"; "dryRun"]
             (reify n (w_heap w) (VRef l)) payload).
Proof.
  intros Hl Hc.
  assert (Hobj : is_object (reify n (w_heap w) (VRef l)) = true).
  { destruct n; [discriminate |]. cbn [reify]. now rewrite Hl. }
  split.
  - pose proof (find_world storage dataContract documentType (VRef l) w) as Hw.
    cbn [default_empty_object] in Hw.
    rewrite (find_query_object _ l ps Hl) in Hw. rewrite Hw. cbn [w_calls].
    rewrite forwarded_queries_app. cbn [forwarded_queries].
    eexists. split; [reflexivity |].
    rewrite (stripped_clone_reify _ _ l ps n Hl Hc).
    now apply data_strip_stripped.
  - pose proof (prove_world storage dataContract documentType (VRef l) w) as Hw.
    cbn [default_empty_object] in Hw.
    rewrite (prove_query_object _ l ps Hl) in Hw. rewrite Hw. cbn [w_calls].
    rewrite forwarded_queries_app. cbn [forwarded_queries].
    eexists. split; [reflexivity |].
    rewrite (stripped_clone_reify _ _ l ps n Hl Hc).
    now apply data_strip_stripped.
Qed.

Lemma query_payload_is_options_stripped_witness :
  w_heap (world_of example_options_heap) !! 0
  = Some (CObject [ ("where", VRef 1); ("limit", VNum 5); ("startAt", VUndefined);
                    ("useTransaction", VBool true); ("dryRun", VBool false);
                    ("blockInfo", VRef 2) ])
  /\ complete (reify 2 (w_heap (world_of example_options_heap)) (VRef 0)) = true
  /\ (exists payload,
        forwarded_queries 2
          (w_calls (snd (find
             (example_store (Returned ([], 0%Z)) (Returned ([], 0%Z))
                (Returned example_fee) (Returned []))
             example_contract "note" (VRef 0) (world_of example_options_heap))))
        = forwarded_queries 2 (w_calls (world_of example_options_heap)) ++ [payload]
        /\ stripped_of ["useTransaction"; "dryRun"; "blockInfo"]
             (reify 2 (w_heap (world_of example_options_heap)) (VRef 0)) payload).
Proof.
  split; [reflexivity |]. split; [reflexivity |].
  apply (proj1 (query_payload_is_options_stripped
                  (example_store (Returned ([], 0%Z)) (Returned ([], 0%Z))
                     (Returned example_fee) (Returned []))
                  example_contract "note" 0
                  [ ("where", VRef 1); ("limit", VNum 5); ("startAt", VUndefined);
                    ("useTransaction", VBool true); ("dryRun", VBool false);
                    ("blockInfo", VRef 2) ]
                  (world_of example_options_heap) 2 eq_refl eq_refl)).
Defined.

(** What the two operations forward for these options. *)
Example find_forwards_example :
  forwarded_queries 2
    (w_calls (snd (find
       (example_store (Returned ([], 0%Z)) (Returned ([], 0%Z))
          (Returned example_fee) (Returned []))
       example_contract "note" (VRef 0) (world_of example_options_heap))))
  = [ DObject [ ("where", DArray [DStr "a"; DStr "=="; DNum 1]);
                ("limit", DNum 5) ] ].
Proof. reflexivity. Qed.

(** The stripping is behind the guard on plain objects: options that are
    an array are forwarded as they are, [undefined] elements included. *)
Example find_forwards_array_as_is :
  forwarded_queries 1
    (w_calls (snd (find
       (example_store (Returned ([], 0%Z)) (Returned ([], 0%Z))
          (Returned example_fee) (Returned []))
       example_contract "note" (VRef 0) (world_of [CArray [VUndefined; VNum 1]]))))
  = [ DArray [DUndefined; DNum 1] ].
Proof. reflexivity. Qed.

(** Against C3 as stated, which has the payload of [prove] free of
    block-context fields.  [prove] forwards [blockInfo]: its payload for
    the options above holds the field, so it is not the options stripped
    of [useTransaction], [dryRun] and [blockInfo]. *)
Lemma prove_forwards_blockInfo :
  forwarded_queries 2
    (w_calls (snd (prove
       (example_store (Returned ([], 0%Z)) (Returned ([], 0%Z))
          (Returned example_fee) (Returned []))
       example_contract "note" (VRef 0) (world_of example_options_heap))))
  = [ DObject [ ("where", DArray [DStr "a"; DStr "=="; DNum 1]);
                ("limit", DNum 5);
                ("blockInfo", DObject [ ("epoch", DNum 3) ]) ] ]
  /\ ~ stripped_of ["useTransaction"; "dryRun"; "blockInfo"]
         (reify 2 example_options_heap (VRef 0))
         (DObject [ ("where", DArray [DStr "a"; DStr "=="; DNum 1]);
                    ("limit", DNum 5);
                    ("blockInfo", DObject [ ("epoch", DNum 3) ]) ]).
Proof.
  split; [reflexivity |].
  intros (_ & Hcontrols & _).
  specialize (Hcontrols "blockInfo"%string). simpl in Hcontrols.
  assert (H : Some (DObject [("epoch"%string, DNum 3)]) = None) by auto.
  discriminate H.
Qed.

(** ** Two cursors (C4) *)

Lemma prop_value_strip_props (controls : list string) (k : string)
    (ps : list (string * value)) :
  is_control controls k = false ->
  prop_value k ps <> VUndefined ->
  prop_value k (strip_props controls ps) = prop_value k ps.
Proof.
  intros Hc Hv. unfold strip_props, prop_value at 1.
  change (kept controls ps)
    with (fun kv : string * value =>
            (fun k => negb (is_control controls k)
                      && negb (value_eqb_undefined (prop_value k ps))) (fst kv)).
  rewrite lookup_prop_filter; [reflexivity |].
  rewrite Hc. destruct (prop_value k ps); simpl; congruence.
Qed.

Lemma prop_value_relocate (n : nat) (k : string) (ps : list (string * value)) :
  prop_value k (relocate_props n ps) = Lodash.relocate n (prop_value k ps).
Proof.
  unfold prop_value. rewrite lookup_relocate_props.
  now destruct (lookup_prop k ps).
Qed.

Lemma relocate_defined (n : nat) (v : value) :
  v <> VUndefined -> Lodash.relocate n v <> VUndefined.
Proof. destruct v; simpl; congruence. Qed.

(** An object that sets a field is a plain object. *)
Lemma sets_object (h : heap) (v : value) (k : string) :
  sets h v k ->
  exists l ps, v = VRef l /\ h !! l = Some (CObject ps)
               /\ prop_value k ps <> VUndefined.
Proof.
  unfold sets, getProperty. intros H.
  destruct v as [| |b|z|s|l]; try congruence.
  destruct (h !! l) as [[ps|vs|bs]|] eqn:Hl; try congruence.
  exists l, ps. auto.
Qed.

(** The query of an object that sets a field which is not a control sets
    that field. *)
Lemma stripped_clone_sets (controls : list string) (h : heap) (l : loc)
    (ps : list (string * value)) (k : string) :
  h !! l = Some (CObject ps) ->
  is_control controls k = false ->
  prop_value k ps <> VUndefined ->
  sets
    (<[length h + l := CObject (strip_props controls (relocate_props (length h) ps))]>
       (h ++ List.map (Lodash.relocate_cell (length h)) h))
    (VRef (length h + l)) k.
Proof.
  intros Hl Hc Hv. unfold sets.
  erewrite getProperty_at.
  2:{ apply list_lookup_insert_eq. rewrite length_app, length_map.
      assert (l < length h) by (apply lookup_lt_is_Some; eauto). lia. }
  rewrite prop_value_strip_props; [| exact Hc |];
    rewrite prop_value_relocate; now apply relocate_defined.
Qed.

(** C4.  With a store whose query translation rejects a query that sets
    both cursors, [find], and [prove] as well, called with options that
    set both [startAt] and [startAfter], throw an [InvalidQueryError],
    whatever else the options hold. *)
Theorem two_cursors_fail_with_InvalidQueryError
    (storage : GroveDBStore) (dataContract : DataContract)
    (documentType : string) (options : value) (w : world) :
  rejects_two_cursors storage ->
  sets (w_heap w) options "startAt" ->
  sets (w_heap w) options "startAfter" ->
  (exists msg,
      fst (find storage dataContract documentType options w)
      = Threw (InvalidQueryError msg))
  /\ (exists msg,
        fst (prove storage dataContract documentType options w)
        = Threw (InvalidQueryError msg)).
Proof.
  intros Hstore Hat Hafter.
  destruct (sets_object _ _ _ Hat) as (l & ps & -> & Hl & Hv1).
  destruct (sets_object _ _ _ Hafter) as (l' & ps' & Heq & Hl' & Hv2).
  inversion Heq; subst l'. rewrite Hl in Hl'. inversion Hl'; subst ps'.
  split.
  - rewrite find_outcome. unfold find_store_answer.
    cbn [default_empty_object]. rewrite (find_query_object _ l ps Hl).
    destruct (Hstore _ (VRef (length (w_heap w) + l))
                (stripped_clone_sets ["useTransaction"; "dryRun"; "blockInfo"]%string _ l ps "startAt" Hl eq_refl Hv1)
                (stripped_clone_sets ["useTransaction"; "dryRun"; "blockInfo"]%string _ l ps "startAfter" Hl eq_refl Hv2))
      as [Hfind _].
    edestruct Hfind as (e & -> & rest & Hrest).
    exists rest. rewrite (find_catch_strips "query: " rest); auto.
  - rewrite prove_outcome. unfold prove_store_answer.
    cbn [default_empty_object]. rewrite (prove_query_object _ l ps Hl).
    destruct (Hstore _ (VRef (length (w_heap w) + l))
                (stripped_clone_sets ["useTransaction"; "dryRun"]%string _ l ps "startAt" Hl eq_refl Hv1)
                (stripped_clone_sets ["useTransaction"; "dryRun"]%string _ l ps "startAfter" Hl eq_refl Hv2))
      as [_ Hprove].
    edestruct Hprove as (e & -> & rest & Hrest).
    exists rest. rewrite (prove_catch_strips "query: " rest); auto.
Qed.

Lemma cursor_checking_store_rejects : rejects_two_cursors cursor_checking_store.
Proof.
  intros h query Hat Hafter.
  assert (Hboth : has_both_cursors h query = true).
  { unfold has_both_cursors, sets in *.
    destruct (getProperty h query "startAt"); try congruence;
      destruct (getProperty h query "startAfter"); try congruence;
      reflexivity. }
  split; intros; simpl; rewrite Hboth; eexists; (split; [reflexivity |]);
    now eexists.
Defined.

Lemma two_cursors_fail_with_InvalidQueryError_witness :
  rejects_two_cursors cursor_checking_store
  /\ sets (w_heap (world_of two_cursors_heap)) (VRef 0) "startAt"
  /\ sets (w_heap (world_of two_cursors_heap)) (VRef 0) "startAfter"
  /\ exists msg,
      fst (find cursor_checking_store example_contract "note" (VRef 0)
             (world_of two_cursors_heap))
      = Threw (InvalidQueryError msg).
Proof.
  split; [exact cursor_checking_store_rejects |].
  split; [discriminate |]. split; [discriminate |].
  apply (proj1 (two_cursors_fail_with_InvalidQueryError cursor_checking_store
                  example_contract "note" (VRef 0) (world_of two_cursors_heap)
                  cursor_checking_store_rejects
                  ltac:(discriminate) ltac:(discriminate))).
Defined.

(** * Further properties of the code *)

(** ** getPublicKeyFromPayoutScript *)

Lemma slice_length (b : Buffer) (start stop : nat) :
  length (PayoutScript.slice b start stop)
  = Nat.min (stop - start) (length b - start).
Proof. unfold PayoutScript.slice. now rewrite length_firstn, length_skipn. Qed.

Lemma slice_middle (pre mid post : Buffer) (start stop : nat) :
  length pre = start -> length mid = stop - start ->
  PayoutScript.slice (pre ++ mid ++ post) start stop = mid.
Proof.
  intros Hpre Hmid. unfold PayoutScript.slice. subst start. rewrite <- Hmid.
  now rewrite drop_app_length, take_app_length.
Qed.

(** X1.  For the type ECDSA_HASH160 the key is the 20 bytes that follow
    the first three bytes of the script, for BIP13_SCRIPT_HASH the 20
    bytes that follow the first two, whatever comes after them. *)
Theorem payout_script_hash_is_extracted
    (ECDSA_HASH160 BIP13_SCRIPT_HASH : Z) (pre hash post : Buffer) :
  length hash = 20 ->
  (length pre = 3 ->
   PayoutScript.getPublicKeyFromPayoutScript ECDSA_HASH160 BIP13_SCRIPT_HASH
     {| PayoutScript.toBuffer := pre ++ hash ++ post |} (VNum ECDSA_HASH160)
   = inr hash)
  /\ (length pre = 2 -> BIP13_SCRIPT_HASH <> ECDSA_HASH160 ->
      PayoutScript.getPublicKeyFromPayoutScript ECDSA_HASH160 BIP13_SCRIPT_HASH
        {| PayoutScript.toBuffer := pre ++ hash ++ post |} (VNum BIP13_SCRIPT_HASH)
      = inr hash).
Proof.
  intros Hhash. unfold PayoutScript.getPublicKeyFromPayoutScript. split.
  - intros Hpre. rewrite Z.eqb_refl. f_equal.
    apply (slice_middle pre hash post 3 23); [exact Hpre | exact Hhash].
  - intros Hpre Hne. rewrite (proj2 (Z.eqb_neq _ _) Hne), Z.eqb_refl.
    f_equal. apply (slice_middle pre hash post 2 22); [exact Hpre | exact Hhash].
Qed.

Lemma payout_script_hash_is_extracted_witness :
  length example_key_hash = 20
  /\ length [x76; xa9; x14] = 3
  /\ PayoutScript.getPublicKeyFromPayoutScript 2 3 example_p2pkh_script (VNum 2)
     = inr example_key_hash.
Proof.
  split; [reflexivity |]. split; [reflexivity |].
  apply (proj1 (payout_script_hash_is_extracted 2 3 [x76; xa9; x14]
                  example_key_hash [x88; xac] eq_refl)).
  reflexivity.
Defined.

(** X2.  For the two known types the function never throws, however short
    the script: the key has 20 bytes when the script reaches the end
    offset and fewer otherwise, none for a script that ends before the
    start offset. *)
Theorem payout_key_length
    (ECDSA_HASH160 BIP13_SCRIPT_HASH : Z) (payoutScript : PayoutScript.Script) :
  BIP13_SCRIPT_HASH <> ECDSA_HASH160 ->
  (exists key,
      PayoutScript.getPublicKeyFromPayoutScript ECDSA_HASH160 BIP13_SCRIPT_HASH
        payoutScript (VNum ECDSA_HASH160) = inr key
      /\ length key = Nat.min 20 (length (PayoutScript.toBuffer payoutScript) - 3))
  /\ (exists key,
        PayoutScript.getPublicKeyFromPayoutScript ECDSA_HASH160 BIP13_SCRIPT_HASH
          payoutScript (VNum BIP13_SCRIPT_HASH) = inr key
        /\ length key = Nat.min 20 (length (PayoutScript.toBuffer payoutScript) - 2)).
Proof.
  intros Hne. unfold PayoutScript.getPublicKeyFromPayoutScript. split.
  - rewrite Z.eqb_refl. eexists. split; [reflexivity |]. now rewrite slice_length.
  - rewrite (proj2 (Z.eqb_neq _ _) Hne), Z.eqb_refl.
    eexists. split; [reflexivity |]. now rewrite slice_length.
Qed.

Lemma payout_key_length_witness :
  3%Z <> 2%Z
  /\ exists key,
      PayoutScript.getPublicKeyFromPayoutScript 2 3
        {| PayoutScript.toBuffer := [x76; xa9] |} (VNum 2) = inr key
      /\ length key = Nat.min 20 (length [x76; xa9] - 3).
Proof.
  split; [discriminate |].
  apply (proj1 (payout_key_length 2 3 {| PayoutScript.toBuffer := [x76; xa9] |}
                  ltac:(discriminate))).
Defined.



(** ** DocumentRepository: calls, heap and errors *)

Section MutationCalls.

Variable storage : GroveDBStore.
Variable logger : bool.
Variable sha256 : Buffer -> Buffer.
Variable identifier_toString : Identifier -> string.

Ltac run_mutation_calls :=
  unfold create, update, delete, log_document, log_delete, try_finally, bind,
    on_heap, call_store, logger_info, read_property, get_heap, ret, throw;
  simpl.

Ltac case_store_answers :=
  repeat match goal with
    | |- context [createDocument ?s ?a ?b ?c ?d] =>
        destruct (createDocument s a b c d); simpl
    | |- context [updateDocument ?s ?a ?b ?c ?d] =>
        destruct (updateDocument s a b c d); simpl
    | |- context [deleteDocument ?s ?a ?b ?c ?d ?e ?f] =>
        destruct (deleteDocument s a b c d e f); simpl
    | |- context [getRootHash ?s ?a ?b] =>
        destruct (getRootHash s a b); simpl
    end.

(** X4.  [create], [update] and [delete], called with options other than
    [null], call the store exactly once for the mutation, with the two
    flags turned into booleans, and, when a logger is set, ask for the
    root hash once, after the mutation; this is so whether the mutation
    succeeded or threw. *)
Theorem mutations_call_the_store_once
    (document : Document) (dataContract : DataContract)
    (documentType : string) (id : Identifier) (blockInfo options0 : value)
    (w : world) :
  options0 <> VNull ->
  let (h, options) := default_empty_object (w_heap w) options0 in
  let useTransaction := toBoolean (getProperty h options "useTransaction") in
  let dryRun := toBoolean (getProperty h options "dryRun") in
  let rootHashCall := if logger then [CallGetRootHash h options] else [] in
  w_calls (snd (create storage logger sha256 document blockInfo options0 w))
  = w_calls w
    ++ [CallCreateDocument document blockInfo useTransaction dryRun]
    ++ rootHashCall
  /\ w_calls (snd (update storage logger sha256 document blockInfo options0 w))
     = w_calls w
       ++ [CallUpdateDocument document blockInfo useTransaction dryRun]
       ++ rootHashCall
  /\ w_calls (snd (delete storage logger identifier_toString dataContract
                     documentType id blockInfo options0 w))
     = w_calls w
       ++ [CallDeleteDocument (getId dataContract) documentType id blockInfo
             useTransaction dryRun]
       ++ rootHashCall.
Proof.
  intros Hnull.
  destruct options0; try contradiction; simpl;
    (split; [| split]); run_mutation_calls;
    destruct logger; simpl; case_store_answers;
    rewrite <- ?app_assoc; reflexivity.
Qed.

(** X5.  Called with [null] for options, [create], [update] and [delete]
    throw a [TypeError]; no mutation and no request for the root hash
    reaches the store, nothing is logged and the heap is as it was. *)
Theorem mutations_reject_null_options
    (document : Document) (dataContract : DataContract)
    (documentType : string) (id : Identifier) (blockInfo : value) (w : world) :
  exists msg,
    create storage logger sha256 document blockInfo VNull w
    = (Threw (TypeError msg), w)
    /\ update storage logger sha256 document blockInfo VNull w
       = (Threw (TypeError msg), w)
    /\ delete storage logger identifier_toString dataContract documentType id
         blockInfo VNull w
       = (Threw (TypeError msg), w).
Proof.
  destruct w as [h calls log]. eexists.
  repeat split; run_mutation_calls; destruct logger; reflexivity.
Qed.

(** X6.  The mutations do not write to the heap: but for the empty object
    that stands for options that were not passed, the heap after
    [create], [update] or [delete] is the heap before. *)
Theorem mutations_leave_the_heap
    (document : Document) (dataContract : DataContract)
    (documentType : string) (id : Identifier) (blockInfo options0 : value)
    (w : world) :
  options0 <> VUndefined ->
  w_heap (snd (create storage logger sha256 document blockInfo options0 w))
  = w_heap w
  /\ w_heap (snd (update storage logger sha256 document blockInfo options0 w))
     = w_heap w
  /\ w_heap (snd (delete storage logger identifier_toString dataContract
                    documentType id blockInfo options0 w))
     = w_heap w.
Proof.
  intros Hdef.
  destruct options0; try contradiction; simpl;
    (split; [| split]); run_mutation_calls;
    destruct logger; simpl; case_store_answers; reflexivity.
Qed.

End MutationCalls.

Lemma mutations_call_the_store_once_witness :
  VUndefined <> VNull
  /\ w_calls (snd (create
       (example_store (Returned ([], 0%Z)) (Returned ([], 0%Z))
          (Threw (store_error "already exists")) (Returned [xab]))
       true stub_sha256 example_document VNull VUndefined (world_of [])))
     = [CallCreateDocument example_document VNull false false;
        CallGetRootHash [CObject []] (VRef 0)].
Proof.
  split; [discriminate |].
  exact (proj1 (mutations_call_the_store_once
                  (example_store (Returned ([], 0%Z)) (Returned ([], 0%Z))
                     (Threw (store_error "already exists")) (Returned [xab]))
                  true stub_sha256 stub_identifier_toString
                  example_document example_contract "note" [x07] VNull VUndefined
                  (world_of [])
                  ltac:(discriminate))).
Defined.

Lemma mutations_leave_the_heap_witness :
  VRef 0 <> VUndefined
  /\ w_heap (snd (create
       (example_store (Returned ([], 0%Z)) (Returned ([], 0%Z))
          (Returned example_fee) (Returned [xab]))
       true stub_sha256 example_document VNull (VRef 0)
       (world_of [CObject [("useTransaction", VNum 1)]])))
     = [CObject [("useTransaction", VNum 1)]].
Proof.
  split; [discriminate |].
  exact (proj1 (mutations_leave_the_heap
                  (example_store (Returned ([], 0%Z)) (Returned ([], 0%Z))
                     (Returned example_fee) (Returned [xab]))
                  true stub_sha256 stub_identifier_toString
                  example_document example_contract "note" [x07] VNull (VRef 0)
                  (world_of [CObject [("useTransaction", VNum 1)]])
                  ltac:(discriminate))).
Defined.



Section QueryCalls.

Variable storage : GroveDBStore.
Variable dataContract : DataContract.
Variable documentType : string.


(** X8.  Whatever the options and whatever the store answers, [find] and
    [prove] make one call to the store, the query for the contract and
    document type they were given, and write no log entry. *)
Theorem reads_make_one_call (options : value) (w : world) :
  (exists epochIndex h query useTransaction,
      w_calls (snd (find storage dataContract documentType options w))
      = w_calls w
        ++ [CallQueryDocuments dataContract documentType epochIndex h query
              useTransaction]
      /\ w_log (snd (find storage dataContract documentType options w)) = w_log w)
  /\ (exists h query useTransaction,
        w_calls (snd (prove storage dataContract documentType options w))
        = w_calls w
          ++ [CallProveDocumentsQuery dataContract documentType h query
                useTransaction]
        /\ w_log (snd (prove storage dataContract documentType options w))
           = w_log w).
Proof.
  split.
  - pose proof (find_world storage dataContract documentType options w) as Hw.
    destruct (default_empty_object (w_heap w) options) as [h0 options'].
    destruct (find_query h0 options') as [h1 [query useTransaction]].
    rewrite Hw. simpl. eauto 6.
  - pose proof (prove_world storage dataContract documentType options w) as Hw.
    destruct (default_empty_object (w_heap w) options) as [h0 options'].
    destruct (prove_query h0 options') as [h1 [query useTransaction]].
    rewrite Hw. simpl. eauto 6.
Qed.


End QueryCalls.



(** Reading a property of an object of [h] gives the same in a heap that
    extends [h]. *)
Lemma getProperty_extends (h h' : heap) (v : value) (k : string) :
  extends h h' ->
  (forall b, v = VRef b -> b < length h) ->
  getProperty h' v k = getProperty h v k.
Proof.
  intros [new ->] Hv. destruct v as [| |b|z|s|l]; try reflexivity.
  unfold getProperty. now rewrite lookup_app_l by (now apply Hv).
Qed.

Lemma find_epochIndex_extends (h h' : heap) (l : loc)
    (ps : list (string * value)) :
  extends h h' ->
  h !! l = Some (CObject ps) ->
  (forall b, prop_value "blockInfo" ps = VRef b -> b < length h) ->
  find_epochIndex h' (VRef l) = find_epochIndex h (VRef l).
Proof.
  intros Hext Hl Hb. unfold find_epochIndex.
  assert (Hl' : l < length h) by (apply lookup_lt_is_Some; eauto).
  rewrite (getProperty_extends h h' (VRef l) "blockInfo" Hext)
    by (intros b Heq; inversion Heq; now subst).
  rewrite (getProperty_at h l ps _ Hl).
  now rewrite (getProperty_extends h h' (prop_value "blockInfo" ps) "epoch" Hext Hb).
Qed.

Section QueryArguments.

Variable storage : GroveDBStore.
Variable dataContract : DataContract.
Variable documentType : string.

(** X10.  For options that are a plain object, [find] hands the store the
    [useTransaction] option as the caller gave it, not turned into a
    boolean and [undefined] when the option is absent, and, as epoch
    index, the epoch of [options.blockInfo] as it is in the caller's
    options, although [blockInfo] is removed from the query; [prove]
    hands over [useTransaction] in the same way.  The query is an object
    allocated by the call. *)
Theorem reads_forward_transaction_and_epoch
    (l : loc) (ps : list (string * value)) (w : world) :
  w_heap w !! l = Some (CObject ps) ->
  (forall b, prop_value "blockInfo" ps = VRef b -> b < length (w_heap w)) ->
  (exists h',
      w_calls (snd (find storage dataContract documentType (VRef l) w))
      = w_calls w
        ++ [CallQueryDocuments dataContract documentType
              (find_epochIndex (w_heap w) (VRef l))
              h'
              (VRef (length (w_heap w) + l))
              (Lodash.relocate (length (w_heap w))
                 (getProperty (w_heap w) (VRef l) "useTransaction"))])
  /\ (exists h',
        w_calls (snd (prove storage dataContract documentType (VRef l) w))
        = w_calls w
          ++ [CallProveDocumentsQuery dataContract documentType
                h'
                (VRef (length (w_heap w) + l))
                (Lodash.relocate (length (w_heap w))
                   (getProperty (w_heap w) (VRef l) "useTransaction"))]).
Proof.
  intros Hl Hb. rewrite (getProperty_at _ l ps _ Hl). split.
  - pose proof (find_world storage dataContract documentType (VRef l) w) as Hw.
    cbn [default_empty_object] in Hw.
    pose proof (find_query_extends (w_heap w) (VRef l)) as Hext.
    rewrite (find_query_object _ l ps Hl) in Hw, Hext. cbn [fst] in Hext.
    rewrite Hw. cbn [w_calls].
    rewrite (find_epochIndex_extends _ _ l ps Hext Hl Hb).
    rewrite prop_value_relocate. eauto.
  - pose proof (prove_world storage dataContract documentType (VRef l) w) as Hw.
    cbn [default_empty_object] in Hw.
    rewrite (prove_query_object _ l ps Hl) in Hw.
    rewrite Hw. cbn [w_calls]. rewrite prop_value_relocate. eauto.
Qed.

(** X11.  Called without options, [find] sends the store an empty object
    of its own as query, with [undefined] for [useTransaction] and for the
    epoch index. *)
Theorem find_without_options_sends_an_empty_query (w : world) :
  exists h' q,
    w_calls (snd (find storage dataContract documentType VUndefined w))
    = w_calls w
      ++ [CallQueryDocuments dataContract documentType VUndefined h' (VRef q)
            VUndefined]
    /\ h' !! q = Some (CObject [])
    /\ length (w_heap w) < q.
Proof.
  pose proof (find_world storage dataContract documentType VUndefined w) as Hw.
  cbn [default_empty_object] in Hw.
  assert (Hl : (w_heap w ++ [CObject []]) !! length (w_heap w) = Some (CObject [])).
  { rewrite lookup_app_r by lia. now rewrite Nat.sub_diag. }
  rewrite (find_query_object _ _ [] Hl) in Hw. rewrite Hw. cbn [w_calls].
  assert (Hepoch : find_epochIndex
                     (<[length (w_heap w ++ [CObject []]) + length (w_heap w) :=
                          CObject (strip_props
                                     ["useTransaction"; "dryRun"; "blockInfo"]
                                     (relocate_props
                                        (length (w_heap w ++ [CObject []])) []))]>
                        ((w_heap w ++ [CObject []])
                         ++ List.map
                              (Lodash.relocate_cell
                                 (length (w_heap w ++ [CObject []])))
                              (w_heap w ++ [CObject []])))
                     (VRef (length (w_heap w)))
                   = VUndefined).
  { unfold find_epochIndex, getProperty.
    rewrite list_lookup_insert_ne by (rewrite length_app; simpl; lia).
    rewrite lookup_app_l by (rewrite length_app; simpl; lia).
    now rewrite Hl. }
  rewrite Hepoch. eexists _, _. split; [reflexivity |]. split.
  - apply list_lookup_insert_eq. rewrite !length_app, length_map, length_app.
    simpl. lia.
  - rewrite length_app. simpl. lia.
Qed.

(** X12.  Options that are [null], a boolean, a number or a string are
    not stripped of anything: [find] sends the store the value itself as
    query, with [false] for [useTransaction] and [undefined] for the
    epoch index, and leaves the heap as it is. *)
Theorem find_passes_primitive_options_through (options : value) (w : world) :
  options <> VUndefined ->
  (forall l, options <> VRef l) ->
  snd (find storage dataContract documentType options w)
  = mkWorld (w_heap w)
      (w_calls w
       ++ [CallQueryDocuments dataContract documentType VUndefined (w_heap w)
             options (VBool false)])
      (w_log w).
Proof.
  intros Hu Hr.
  pose proof (find_world storage dataContract documentType options w) as Hw.
  assert (Hd : default_empty_object (w_heap w) options = (w_heap w, options))
    by (destruct options; [contradiction | reflexivity ..]).
  assert (Hq : find_query (w_heap w) options
               = (w_heap w, (options, VBool false)))
    by (destruct options as [| |b|z|s|l];
        [reflexivity .. | exfalso; now apply (Hr l)]).
  assert (He : find_epochIndex (w_heap w) options = VUndefined).
  { unfold find_epochIndex.
    destruct options as [| |b|z|s|l]; try reflexivity;
      try (cbn; now rewrite andb_false_r).
    exfalso. now apply (Hr l). }
  rewrite Hd, Hq in Hw. now rewrite Hw, He.
Qed.

End QueryArguments.

Lemma example_blockInfo_is_on_the_heap :
  forall b,
    prop_value "blockInfo"
      [ ("where", VRef 1); ("limit", VNum 5); ("startAt", VUndefined);
        ("useTransaction", VBool true); ("dryRun", VBool false);
        ("blockInfo", VRef 2) ] = VRef b ->
    b < length (w_heap (world_of example_options_heap)).
Proof. intros b H. inversion H. simpl. lia. Defined.

Lemma reads_forward_transaction_and_epoch_witness :
  w_heap (world_of example_options_heap) !! 0
  = Some (CObject [ ("where", VRef 1); ("limit", VNum 5); ("startAt", VUndefined);
                    ("useTransaction", VBool true); ("dryRun", VBool false);
                    ("blockInfo", VRef 2) ])
  /\ exists h',
      w_calls (snd (find
         (example_store (Returned ([], 0%Z)) (Returned ([], 0%Z))
            (Returned example_fee) (Returned []))
         example_contract "note" (VRef 0) (world_of example_options_heap)))
      = [CallQueryDocuments example_contract "note" (VNum 3) h' (VRef 3)
           (VBool true)].
Proof.
  split; [reflexivity |].
  exact (proj1 (reads_forward_transaction_and_epoch
                  (example_store (Returned ([], 0%Z)) (Returned ([], 0%Z))
                     (Returned example_fee) (Returned []))
                  example_contract "note" 0
                  [ ("where", VRef 1); ("limit", VNum 5); ("startAt", VUndefined);
                    ("useTransaction", VBool true); ("dryRun", VBool false);
                    ("blockInfo", VRef 2) ]
                  (world_of example_options_heap) eq_refl
                  example_blockInfo_is_on_the_heap)).
Defined.

Lemma find_passes_primitive_options_through_witness :
  VNull <> VUndefined
  /\ (forall l, VNull <> VRef l)
  /\ snd (find
            (example_store (Returned ([], 0%Z)) (Returned ([], 0%Z))
               (Returned example_fee) (Returned []))
            example_contract "note" VNull (world_of []))
     = mkWorld []
         [CallQueryDocuments example_contract "note" VUndefined [] VNull
            (VBool false)]
         [].
Proof.
  split; [discriminate |]. split; [discriminate |].
  exact (find_passes_primitive_options_through
           (example_store (Returned ([], 0%Z)) (Returned ([], 0%Z))
              (Returned example_fee) (Returned []))
           example_contract "note" VNull (world_of [])
           ltac:(discriminate) ltac:(discriminate)).
Defined.

(** ** Paths of the documents to prove *)




(** ** DriveClient: what is sent, and replies that lack a part *)

Lemma data_lookup_set_field_eq (k : string) (v : data) (ps : list (string * data)) :
  data_lookup k (DriveClient.set_field k v ps) = Some v.
Proof.
  induction ps as [|[k' v'] ps IH]; simpl.
  - now rewrite String.eqb_refl.
  - destruct (String.eqb_spec k k') as [->|Hne]; simpl.
    + now rewrite String.eqb_refl.
    + now rewrite (proj2 (String.eqb_neq k k') Hne).
Qed.

Lemma data_lookup_set_field_ne (k k0 : string) (v : data)
    (ps : list (string * data)) :
  k0 <> k ->
  data_lookup k0 (DriveClient.set_field k v ps) = data_lookup k0 ps.
Proof.
  intros Hne. induction ps as [|[k' v'] ps IH]; simpl.
  - now rewrite (proj2 (String.eqb_neq k0 k) Hne).
  - destruct (String.eqb_spec k k') as [->|Hk]; simpl.
    + now rewrite (proj2 (String.eqb_neq k0 k') Hne).
    + now rewrite IH.
Qed.

Lemma set_field_keys (k : string) (v : data) (ps : list (string * data)) :
  List.map fst (DriveClient.set_field k v ps)
  = if existsb (String.eqb k) (List.map fst ps)
    then List.map fst ps
    else List.map fst ps ++ [k].
Proof.
  induction ps as [|[k' v'] ps IH]; simpl; [reflexivity |].
  destruct (String.eqb_spec k k') as [->|Hk]; simpl; [reflexivity |].
  rewrite IH. now destruct (existsb _ _).
Qed.

(** X14.  Whatever the options hold, the data [fetchDocuments] sends has
    the contract identifier and the document type it was called with: an
    option named [contractId] or [type] is overwritten.  Every other
    option is sent as it is, and no key of the options is lost. *)
Theorem fetchDocuments_fixes_contract_and_type
    (contractId type : data) (options : option (list (string * data))) :
  data_get "contractId" (DriveClient.fetchDocuments_data contractId type options)
  = Some contractId
  /\ data_get "type" (DriveClient.fetchDocuments_data contractId type options)
     = Some type
  /\ (forall k, k <> "contractId"%string -> k <> "type"%string ->
        data_get k (DriveClient.fetchDocuments_data contractId type options)
        = data_lookup k (DriveClient.spread options))
  /\ (forall k, In k (List.map fst (DriveClient.spread options)) ->
        In k (data_keys (DriveClient.fetchDocuments_data contractId type options))).
Proof.
  unfold DriveClient.fetchDocuments_data, data_get, data_keys. repeat split.
  - rewrite data_lookup_set_field_ne by discriminate.
    apply data_lookup_set_field_eq.
  - apply data_lookup_set_field_eq.
  - intros k H1 H2. now rewrite !data_lookup_set_field_ne.
  - intros k Hin. rewrite !set_field_keys.
    repeat match goal with
           | |- context [if ?b then _ else _] => destruct b
           end; rewrite ?in_app_iff; auto.
Qed.

Lemma fetchDocuments_fixes_contract_and_type_witness :
  data_get "contractId"
    (DriveClient.fetchDocuments_data (DBuffer [x2a]) (DStr "note")
       (Some [("limit", DNum 1); ("contractId", DBuffer [xff])]))
  = Some (DBuffer [x2a])
  /\ data_get "limit"
       (DriveClient.fetchDocuments_data (DBuffer [x2a]) (DStr "note")
          (Some [("limit", DNum 1); ("contractId", DBuffer [xff])]))
     = data_lookup "limit"
         (DriveClient.spread (Some [("limit", DNum 1); ("contractId", DBuffer [xff])])).
Proof.
  pose proof (fetchDocuments_fixes_contract_and_type (DBuffer [x2a]) (DStr "note")
                (Some [("limit", DNum 1); ("contractId", DBuffer [xff])]))
    as (H1 & _ & H3 & _).
  split; [exact H1 |]. apply H3; discriminate.
Defined.

Lemma hex_value_digit (n : N) : (n < 16)%N -> hex_value (hex_digit n) = n.
Proof.
  intros H.
  assert (Hn : In n [0; 1; 2; 3; 4; 5; 6; 7; 8; 9; 10; 11; 12; 13; 14; 15]%N).
  { simpl. lia. }
  simpl in Hn.
  repeat (destruct Hn as [<- | Hn]; [reflexivity |]). contradiction.
Qed.

Lemma toHex_inj (b1 b2 : Buffer) : toHex b1 = toHex b2 -> b1 = b2.
Proof.
  revert b2. induction b1 as [|x b1 IH]; intros [|y b2] H; simpl in H;
    try discriminate; [reflexivity |].
  inversion H as [[Hhi Hlo Hrest]].
  apply (f_equal hex_value) in Hhi, Hlo.
  pose proof (Byte.to_N_bounded x) as Bx. pose proof (Byte.to_N_bounded y) as By.
  rewrite !hex_value_digit in Hhi, Hlo
    by (try (apply N.mod_lt; lia); apply N.Div0.div_lt_upper_bound; lia).
  assert (Hxy : Byte.to_N x = Byte.to_N y).
  { rewrite (N.div_mod (Byte.to_N x) 16), (N.div_mod (Byte.to_N y) 16) by lia.
    now rewrite Hhi, Hlo. }
  assert (Some x = Some y) as Heq
    by (rewrite <- (Byte.of_to_N x), <- (Byte.of_to_N y); now rewrite Hxy).
  inversion Heq. f_equal. now apply IH.
Qed.

Section RequestProperties.

Import DriveClient.

Variable cbor_encode : data -> Buffer.
Variable base64_decode : string -> Buffer.
Variable createGrpcErrorFromDriveResponse : Z -> option string -> JS.error.
Variable client_request : string -> request_options -> outcome rpc_reply.

(** X15.  The hexadecimal text loses nothing: two requests that hand the
    same options to the JSON-RPC client have the same path, the same
    encoded bytes and the same [prove] flag. *)
Theorem request_options_determine_the_request
    (path1 path2 : string) (data1 data2 : data) (prove1 prove2 : option bool) :
  build_request_options cbor_encode path1 (Some data1) prove1
  = build_request_options cbor_encode path2 (Some data2) prove2 ->
  path1 = path2
  /\ cbor_encode data1 = cbor_encode data2
  /\ match prove1 with Some b => b | None => false end
     = match prove2 with Some b => b | None => false end.
Proof.
  unfold build_request_options. intros H. inversion H as [[Hp Hd Hpr]].
  repeat split; auto. now apply toHex_inj.
Qed.

(** X16.  A reply that has neither an error nor a result, and a reply whose
    response has code 0 or none but no value, make [request] throw a
    [TypeError]: no bytes are returned for a reply that lacks them. *)
Theorem request_fails_on_incomplete_reply
    (path : string) (data0 : option data) (prove0 : option bool)
    (reply : rpc_reply) :
  client_request "abci_query" (build_request_options cbor_encode path data0 prove0)
  = Returned reply ->
  error reply = None ->
  result reply = None
  \/ (exists response,
         result reply = Some response
         /\ (code response = None \/ code response = Some 0%Z)
         /\ value response = None) ->
  exists msg,
    request cbor_encode base64_decode createGrpcErrorFromDriveResponse
      client_request path data0 prove0
    = Threw (TypeError msg).
Proof.
  intros Hreply Herr Hcase.
  rewrite (request_received cbor_encode base64_decode
             createGrpcErrorFromDriveResponse client_request _ _ _ _ Hreply).
  unfold handle_reply. rewrite Herr.
  destruct Hcase as [-> | (response & -> & Hcode & ->)]; [eauto |].
  destruct Hcode as [-> | ->]; eauto.
Qed.

End RequestProperties.

Lemma request_options_determine_the_request_witness :
  DriveClient.build_request_options stub_cbor_encode "/identities" (Some DNull) None
  = DriveClient.build_request_options stub_cbor_encode "/identities" (Some DNull)
      (Some false)
  /\ stub_cbor_encode DNull = stub_cbor_encode DNull.
Proof.
  split; [reflexivity |].
  exact (proj1 (proj2 (request_options_determine_the_request stub_cbor_encode
                         "/identities" "/identities" DNull DNull None (Some false)
                         eq_refl))).
Defined.

Lemma request_fails_on_incomplete_reply_witness :
  client_receiving (reply_with_response (Some 0%Z) None None) "abci_query"
    (DriveClient.build_request_options stub_cbor_encode "/identities" None None)
  = Returned (reply_with_response (Some 0%Z) None None)
  /\ exists msg,
      DriveClient.request stub_cbor_encode stub_base64_decode stub_grpc_error
        (client_receiving (reply_with_response (Some 0%Z) None None))
        "/identities" None None
      = Threw (TypeError msg).
Proof.
  split; [reflexivity |].
  apply (request_fails_on_incomplete_reply stub_cbor_encode stub_base64_decode
           stub_grpc_error
           (client_receiving (reply_with_response (Some 0%Z) None None))
           "/identities" None None
           (reply_with_response (Some 0%Z) None None) eq_refl eq_refl).
  right. eexists. split; [reflexivity |]. split; [now right | reflexivity].
Defined.

(** ** ensureHomeDir *)

Section HomeDirProperties.

Import HomeDir.

Variable HOME_DIR_PATH : string.
Variable fs : FileSystem.

(** X17.  [ensureHomeDir] ends in one of three ways: it returns the path
    of the home directory, or throws one of its own two errors for that
    path; an error of the file system never comes out as it is.  It
    returns exactly when the directory exists and can be read and
    written, or does not exist and could be created and have its mode
    set.  [HomeDirIsNotWritableError] is only thrown for a directory that
    exists, [CouldNotCreateHomeDirError] only for one that does not. *)
Theorem ensureHomeDir_outcomes (trace : list fs_call) :
  (fst (ensureHomeDir HOME_DIR_PATH fs trace) = inr HOME_DIR_PATH
   \/ fst (ensureHomeDir HOME_DIR_PATH fs trace)
      = inl (HomeDirIsNotWritableError HOME_DIR_PATH)
   \/ fst (ensureHomeDir HOME_DIR_PATH fs trace)
      = inl (CouldNotCreateHomeDirError HOME_DIR_PATH))
  /\ (fst (ensureHomeDir HOME_DIR_PATH fs trace) = inr HOME_DIR_PATH
      <-> (existsSync fs HOME_DIR_PATH = true
           /\ accessSync fs HOME_DIR_PATH 6 = Returned tt)
          \/ (existsSync fs HOME_DIR_PATH = false
              /\ mkdirSync fs HOME_DIR_PATH = Returned tt
              /\ chmodSync fs HOME_DIR_PATH 448 = Returned tt))
  /\ (fst (ensureHomeDir HOME_DIR_PATH fs trace)
      = inl (HomeDirIsNotWritableError HOME_DIR_PATH)
      -> existsSync fs HOME_DIR_PATH = true)
  /\ (fst (ensureHomeDir HOME_DIR_PATH fs trace)
      = inl (CouldNotCreateHomeDirError HOME_DIR_PATH)
      -> existsSync fs HOME_DIR_PATH = false).
Proof.
  unfold ensureHomeDir. change (Z.lor R_OK W_OK) with 6%Z.
  destruct (existsSync fs HOME_DIR_PATH).
  - destruct (accessSync fs HOME_DIR_PATH 6) as [[]|e]; cbn;
      repeat split; auto; try discriminate; try tauto;
      intros [[_ H] | [H _]]; discriminate.
  - destruct (mkdirSync fs HOME_DIR_PATH) as [[]|e]; cbn;
      [destruct (chmodSync fs HOME_DIR_PATH 448) as [[]|e]; cbn |];
      repeat split; auto; try discriminate; try tauto;
      try (intros [[H _] | (_ & H1 & H2)]; discriminate).
Qed.

(** X18.  A home directory that exists is only checked: after
    [existsSync] the one call is [accessSync] for reading and writing,
    nothing is created and no mode is changed.  A directory that does
    not exist is created with [mkdirSync], and its mode is set to 0o700
    exactly when the creation succeeded; access is not checked. *)
Theorem ensureHomeDir_calls (trace : list fs_call) :
  (existsSync fs HOME_DIR_PATH = true ->
   snd (ensureHomeDir HOME_DIR_PATH fs trace)
   = trace ++ [CallExistsSync HOME_DIR_PATH; CallAccessSync HOME_DIR_PATH 6])
  /\ (existsSync fs HOME_DIR_PATH = false ->
      snd (ensureHomeDir HOME_DIR_PATH fs trace)
      = trace
        ++ [CallExistsSync HOME_DIR_PATH; CallMkdirSync HOME_DIR_PATH]
        ++ match mkdirSync fs HOME_DIR_PATH with
           | Returned _ => [CallChmodSync HOME_DIR_PATH 448]
           | Threw _ => []
           end).
Proof.
  unfold ensureHomeDir. change (Z.lor R_OK W_OK) with 6%Z.
  split; intros ->.
  - destruct (accessSync fs HOME_DIR_PATH 6); cbn; now rewrite <- app_assoc.
  - destruct (mkdirSync fs HOME_DIR_PATH); cbn;
      [destruct (chmodSync fs HOME_DIR_PATH 448); cbn |];
      now rewrite <- ?app_assoc.
Qed.

End HomeDirProperties.

Lemma ensureHomeDir_outcomes_witness :
  (HomeDir.existsSync fresh_file_system "/home/dash/.dashmate" = false
   /\ HomeDir.mkdirSync fresh_file_system "/home/dash/.dashmate" = Returned tt
   /\ HomeDir.chmodSync fresh_file_system "/home/dash/.dashmate" 448 = Returned tt)
  /\ fst (HomeDir.ensureHomeDir "/home/dash/.dashmate" fresh_file_system [])
     = inr "/home/dash/.dashmate"%string.
Proof.
  assert (H : HomeDir.existsSync fresh_file_system "/home/dash/.dashmate" = false
              /\ HomeDir.mkdirSync fresh_file_system "/home/dash/.dashmate"
                 = Returned tt
              /\ HomeDir.chmodSync fresh_file_system "/home/dash/.dashmate" 448
                 = Returned tt) by (repeat split).
  split; [exact H |].
  apply (proj2 (proj1 (proj2 (ensureHomeDir_outcomes "/home/dash/.dashmate"
                                fresh_file_system [])))).
  right. exact H.
Defined.

Lemma ensureHomeDir_calls_witness :
  HomeDir.existsSync read_only_file_system "/home/dash/.dashmate" = true
  /\ snd (HomeDir.ensureHomeDir "/home/dash/.dashmate" read_only_file_system [])
     = [HomeDir.CallExistsSync "/home/dash/.dashmate";
        HomeDir.CallAccessSync "/home/dash/.dashmate" 6].
Proof.
  split; [reflexivity |].
  apply (proj1 (ensureHomeDir_calls "/home/dash/.dashmate" read_only_file_system [])).
  reflexivity.
Defined.

(** ** CreditsDistributionPoolCommonStoreRepository *)

Section PoolProperties.

Import CreditsDistributionPoolRepository.

Variable CreditsDistributionPool : Type.
Variable new_CreditsDistributionPool : data -> CreditsDistributionPool.
Variable toJSON : CreditsDistributionPool -> data.
Variable StoreState : Type.
Variable Transaction : Type.
Variable put :
  StoreState -> Buffer -> Buffer -> option Transaction -> outcome unit * StoreState.
Variable get :
  StoreState -> Buffer -> option Transaction -> outcome (option Buffer).
Variable encodeCanonical : data -> Buffer.
Variable decode : Buffer -> outcome data.

(** X19.  With a store that gives back, under a key and in a transaction,
    the value last put there, and codecs that decode the encoding of the
    pool's JSON to that JSON: a pool that was stored is fetched, in the
    same transaction, as the pool made of the [amount] of its JSON.  When
    the store has nothing under the key, [fetch] gives the pool made
    without an amount and decodes nothing. *)
Theorem stored_pool_is_fetched
    (pool : CreditsDistributionPool) (transaction : option Transaction)
    (s s' : StoreState) (amount : data) :
  (forall s0 k v t s1,
      put s0 k v t = (Returned tt, s1) -> get s1 k t = Returned (Some v)) ->
  decode (encodeCanonical (toJSON pool)) = Returned (toJSON pool) ->
  data_get "amount" (toJSON pool) = Some amount ->
  store CreditsDistributionPool toJSON StoreState Transaction put encodeCanonical
    pool transaction s = (Returned tt, s') ->
  fetch CreditsDistributionPool new_CreditsDistributionPool StoreState Transaction
    get decode transaction s'
  = Returned (new_CreditsDistributionPool amount).
Proof.
  intros Hlaw Hcodec Hamount Hstore. unfold store in Hstore. unfold fetch.
  rewrite (Hlaw _ _ _ _ _ Hstore), Hcodec.
  destruct (toJSON pool) as [| | | | |ps| | | |]; try discriminate.
  cbn in *. now rewrite Hamount.
Qed.

(** X20.  [fetch] never gives a pool from something it could not read:
    when the store throws, or holds bytes that do not decode, or that
    decode to [null], [fetch] throws; it returns the pool made without
    an amount only when the store holds nothing under the key. *)
Theorem fetch_defaults_only_on_absence
    (transaction : option Transaction) (s : StoreState) :
  (get s COMMON_STORE_KEY_NAME transaction = Returned None ->
   fetch CreditsDistributionPool new_CreditsDistributionPool StoreState
     Transaction get decode transaction s
   = Returned (new_CreditsDistributionPool DUndefined))
  /\ (forall e,
        get s COMMON_STORE_KEY_NAME transaction = Threw e ->
        fetch CreditsDistributionPool new_CreditsDistributionPool StoreState
          Transaction get decode transaction s
        = Threw e)
  /\ (forall encoded e,
        get s COMMON_STORE_KEY_NAME transaction = Returned (Some encoded) ->
        decode encoded = Threw e ->
        fetch CreditsDistributionPool new_CreditsDistributionPool StoreState
          Transaction get decode transaction s
        = Threw e)
  /\ (forall encoded,
        get s COMMON_STORE_KEY_NAME transaction = Returned (Some encoded) ->
        decode encoded = Returned DNull ->
        exists msg,
          fetch CreditsDistributionPool new_CreditsDistributionPool StoreState
            Transaction get decode transaction s
          = Threw (TypeError msg)).
Proof.
  unfold fetch. repeat split.
  - now intros ->.
  - now intros e ->.
  - now intros encoded e -> ->.
  - intros encoded -> ->. cbn. eauto.
Qed.

End PoolProperties.

Lemma list_store_keeps_what_is_put :
  forall s0 k v t s1,
    list_store_put s0 k v t = (Returned tt, s1) ->
    list_store_get s1 k t = Returned (Some v).
Proof.
  intros s0 k v t s1 H. inversion H; subst. unfold list_store_get. cbn.
  destruct (List.list_eq_dec Byte.byte_eq_dec k k); [reflexivity | contradiction].
Defined.

Lemma stored_pool_is_fetched_witness :
  stub_decode (stub_encodeCanonical (amount_pool_toJSON 5))
  = Returned (amount_pool_toJSON 5)
  /\ data_get "amount" (amount_pool_toJSON 5) = Some (DNum 5)
  /\ CreditsDistributionPoolRepository.fetch Z amount_pool_new
       (list (Buffer * Buffer)) unit list_store_get stub_decode None
       [(CreditsDistributionPoolRepository.COMMON_STORE_KEY_NAME, [xa1])]
     = Returned 5%Z.
Proof.
  split; [reflexivity |]. split; [reflexivity |].
  exact (stored_pool_is_fetched Z amount_pool_new amount_pool_toJSON
           (list (Buffer * Buffer)) unit list_store_put list_store_get
           stub_encodeCanonical stub_decode 5%Z None []
           [(CreditsDistributionPoolRepository.COMMON_STORE_KEY_NAME, [xa1])]
           (DNum 5)
           list_store_keeps_what_is_put eq_refl eq_refl eq_refl).
Defined.

Lemma fetch_defaults_only_on_absence_witness :
  list_store_get [] CreditsDistributionPoolRepository.COMMON_STORE_KEY_NAME None
  = Returned None
  /\ CreditsDistributionPoolRepository.fetch Z amount_pool_new
       (list (Buffer * Buffer)) unit list_store_get stub_decode None []
     = Returned 0%Z.
Proof.
  split; [reflexivity |].
  exact (proj1 (fetch_defaults_only_on_absence Z amount_pool_new
                  (list (Buffer * Buffer)) unit list_store_get stub_decode
                  None [])
           eq_refl).
Defined.

(** ** The form of the masternode addresses *)

(** X21.  The form accepts the three addresses exactly when each of them
    is valid and the payout address is neither the owner address nor the
    voting address.  It answers [false] exactly when one of them is not
    valid, also when the payout address repeats another one; the message
    about the payout address is only given for valid addresses. *)
Theorem masternode_addresses_validation
    (validateAddressWithNetwork : string -> bool)
    (ownerAddress votingAddress payoutAddress : string) :
  (MasternodeAddresses.validate validateAddressWithNetwork ownerAddress
     votingAddress payoutAddress = MasternodeAddresses.Accepted
   <-> validateAddressWithNetwork ownerAddress = true
       /\ validateAddressWithNetwork votingAddress = true
       /\ validateAddressWithNetwork payoutAddress = true
       /\ ownerAddress <> payoutAddress
       /\ votingAddress <> payoutAddress)
  /\ (MasternodeAddresses.validate validateAddressWithNetwork ownerAddress
        votingAddress payoutAddress = MasternodeAddresses.Rejected
      <-> validateAddressWithNetwork ownerAddress = false
          \/ validateAddressWithNetwork votingAddress = false
          \/ validateAddressWithNetwork payoutAddress = false)
  /\ (forall msg,
        MasternodeAddresses.validate validateAddressWithNetwork ownerAddress
          votingAddress payoutAddress = MasternodeAddresses.Complaint msg ->
        validateAddressWithNetwork ownerAddress = true
        /\ validateAddressWithNetwork votingAddress = true
        /\ validateAddressWithNetwork payoutAddress = true
        /\ (ownerAddress = payoutAddress \/ votingAddress = payoutAddress)).
Proof.
  unfold MasternodeAddresses.validate.
  destruct (validateAddressWithNetwork ownerAddress),
    (validateAddressWithNetwork votingAddress),
    (validateAddressWithNetwork payoutAddress); cbn;
    destruct (String.eqb_spec ownerAddress payoutAddress),
      (String.eqb_spec votingAddress payoutAddress); cbn;
    repeat split; intros; try discriminate; try tauto; intuition congruence.
Qed.

Lemma masternode_addresses_validation_witness :
  (negb (String.eqb "yOwner" "") = true
   /\ negb (String.eqb "yVoting" "") = true
   /\ negb (String.eqb "yPayout" "") = true
   /\ "yOwner"%string <> "yPayout"%string
   /\ "yVoting"%string <> "yPayout"%string)
  /\ MasternodeAddresses.validate (fun a => negb (String.eqb a ""))
       "yOwner" "yVoting" "yPayout"
     = MasternodeAddresses.Accepted.
Proof.
  assert (H : negb (String.eqb "yOwner" "") = true
              /\ negb (String.eqb "yVoting" "") = true
              /\ negb (String.eqb "yPayout" "") = true
              /\ "yOwner"%string <> "yPayout"%string
              /\ "yVoting"%string <> "yPayout"%string)
    by (repeat split; discriminate).
  split; [exact H |].
  exact (proj2 (proj1 (masternode_addresses_validation
                         (fun a => negb (String.eqb a ""))
                         "yOwner" "yVoting" "yPayout")) H).
Defined.
